(** * RatingBar.js: the rating state synchronisation of the like/dislike widget

    A shallow embedding of [class RatingBar] (src/RatingBar.js): the cache
    store kept in [localStorage] under the key "ratings" ([getAllCache],
    [getCached], [setCache]), the cache-or-fetch read ([getRating], [load]),
    the vote handlers ([like], [dislike]), the presentation values computed by
    [update], the cache key computed by [getURL], and the constructor, which
    chooses [apiRoot] and starts [load].

    Conventions of the embedding.
    - JavaScript values are the JSON values plus [undefined] and [NaN]
      ([JS.value]).  Numbers are mathematical integers: counters and
      millisecond timestamps stay far below 2^53, where the doubles of the
      source are exact.
    - An object used as a dictionary is a [gmap string value]: a property
      read is an own-property lookup (the members an object inherits from
      [Object.prototype] are not part of the dictionary).
    - Every method of the class is a computation [M A] over a [World] that
      holds the browser state the method touches (the "ratings" item of
      [localStorage], the clock read by [Date.now()], [window.location.href],
      the remote service) and the fields of [this].  A computation ends in
      [Ok], in [Throw] (a JavaScript exception or a rejected promise), or in
      [Beyond] when it needs a coercion the embedding does not cover (string
      concatenation by [+], string-to-number conversion, properties of
      arrays and of string primitives).
    - An [async] method runs from its call to its end in one piece: the
      clock moves by the delay of the reply while the method awaits it, and
      no other handler runs in between.  [localStorage.setItem] always
      succeeds.
    - [JSON.parse], [JSON.stringify] and [new URL] are builtins of the
      browser: the methods take them from a [Platform], and the properties
      are proved for every platform.  [Reference_platform] is a small
      executable one, used to run the methods on concrete worlds. *)

From Stdlib Require Import ZArith String Ascii List Lia.
From stdpp Require Import gmap strings list fin_maps pretty.

#[local] Set Warnings "-register-all".
#[local] Open Scope Z_scope.

(** ** The JavaScript value fragment *)

Module JS.

(** A number: an integer, or [NaN]. *)
Inductive num : Type :=
| NaN
| Int (z : Z).

Inductive value : Type :=
| VUndef
| VNull
| VBool (b : bool)
| VNum (n : num)
| VStr (s : string)
| VArr (l : list value)
| VObj (m : gmap string value).

(** The object literal [{}]. *)
Definition empty_obj : value := VObj ∅.

Definition int (z : Z) : value := VNum (Int z).

(** ToBoolean: what [if (v)], [!v] and [v || w] look at. *)
Definition truthy (v : value) : bool :=
  match v with
  | VUndef | VNull => false
  | VBool b => b
  | VNum NaN => false
  | VNum (Int z) => negb (z =? 0)
  | VStr s => negb (String.eqb s "")
  | VArr _ | VObj _ => true
  end.

(** ToNumber on [undefined], [null], booleans and numbers; [None] on
    strings, arrays and objects, whose conversion goes through a string. *)
Definition to_number (v : value) : option num :=
  match v with
  | VUndef => Some NaN
  | VNull => Some (Int 0)
  | VBool b => Some (Int (if b then 1 else 0))
  | VNum n => Some n
  | VStr _ | VArr _ | VObj _ => None
  end.

Definition num_add (a b : num) : num :=
  match a, b with
  | Int x, Int y => Int (x + y)
  | _, _ => NaN
  end.

Definition num_sub (a b : num) : num :=
  match a, b with
  | Int x, Int y => Int (x - y)
  | _, _ => NaN
  end.

(** [a + b].  With a string, array or object operand JavaScript
    concatenates strings: [None]. *)
Definition add (a b : value) : option value :=
  match to_number a, to_number b with
  | Some x, Some y => Some (VNum (num_add x y))
  | _, _ => None
  end.

(** [a - b]. *)
Definition sub (a b : value) : option value :=
  match to_number a, to_number b with
  | Some x, Some y => Some (VNum (num_sub x y))
  | _, _ => None
  end.

(** [a < b]: false as soon as one side is [NaN]. *)
Definition lt (a b : value) : option bool :=
  match to_number a, to_number b with
  | Some (Int x), Some (Int y) => Some (x <? y)
  | Some _, Some _ => Some false
  | _, _ => None
  end.

(** [Math.floor(a / b)].  [Z.div] rounds towards minus infinity, as
    [Math.floor] does.  [0 / 0] is [NaN]; [a / 0] for another [a] is an
    infinity, which [num] does not have: [None]. *)
Definition floor_div (a b : value) : option value :=
  match to_number a, to_number b with
  | Some (Int x), Some (Int y) =>
      if y =? 0 then (if x =? 0 then Some (VNum NaN) else None)
      else Some (int (x / y))
  | Some _, Some _ => Some (VNum NaN)
  | _, _ => None
  end.

(** [v === "s"] for a string literal. *)
Definition is_str (v : value) (s : string) : bool :=
  match v with
  | VStr t => String.eqb t s
  | _ => false
  end.

(** The own properties copied by the spread [{...v}].  Nothing is copied
    from [undefined], [null], a boolean or a number; a non-empty string or
    array would contribute its indices: [None]. *)
Definition spread (v : value) : option (gmap string value) :=
  match v with
  | VObj m => Some m
  | VUndef | VNull | VBool _ | VNum _ => Some ∅
  | VStr s => if String.eqb s "" then Some ∅ else None
  | VArr l => match l with [] => Some ∅ | _ :: _ => None end
  end.

End JS.
Export JS.

(** ** The two [String.prototype.replace] calls of [getURL] *)

Module Str.

(** [s.replace(/\/$/, "")]: drops one slash at the end of [s]. *)
Fixpoint strip_trailing_slash (s : string) : string :=
  match s with
  | EmptyString => EmptyString
  | String c s' =>
      match s' with
      | EmptyString => if Ascii.eqb c "/" then EmptyString else s
      | String _ _ => String c (strip_trailing_slash s')
      end
  end.

Fixpoint drop (n : nat) (s : string) : string :=
  match n, s with
  | O, _ => s
  | S _, EmptyString => EmptyString
  | S n', String _ s' => drop n' s'
  end.

(** [s.replace(pat, rep)] with a string pattern: only the first occurrence
    of [pat] is replaced ([rep] holds no [$] pattern here). *)
Fixpoint replace_first (pat rep s : string) : string :=
  if String.prefix pat s then rep +:+ drop (String.length pat) s
  else match s with
       | EmptyString => EmptyString
       | String c s' => String c (replace_first pat rep s')
       end.

(** [pat] is a substring of [s]. *)
Fixpoint occurs (pat s : string) : bool :=
  if String.prefix pat s then true
  else match s with
       | EmptyString => false
       | String _ s' => occurs pat s'
       end.

(** [s] ends with two slashes. *)
Fixpoint ends_with_slashes (s : string) : bool :=
  match s with
  | EmptyString => false
  | String c s' =>
      match s' with
      | String d EmptyString => Ascii.eqb c "/" && Ascii.eqb d "/"
      | _ => ends_with_slashes s'
      end
  end.

End Str.

(** ** Browser builtins *)

(** What [new URL(href)] exposes to [getURL]. *)
Record URL : Type := mkURL {
  hostname : string;
  pathname : string
}.

Class Platform : Type := {
  (** [JSON.parse]: [None] when it throws a [SyntaxError]. *)
  JSON_parse : string -> option value;
  (** [JSON.stringify]. *)
  JSON_stringify : value -> string;
  (** [new URL(s)]: [None] when it throws a [TypeError]. *)
  URL_new : string -> option URL
}.

(** ** The world of a [RatingBar] *)

Inductive exn : Type :=
| SyntaxError
| TypeError
| NetworkError.

(** What a request settles to: [fetch] rejects, [response.json()] rejects,
    or [response.json()] resolves to a JSON value. *)
Inductive outcome : Type :=
| NetFail
| BadBody
| Json (v : value).

Record reply : Type := mkReply {
  delay : Z;          (* milliseconds between the request and its settling *)
  settles : outcome
}.

Record request_log : Type := mkRequest {
  req_url : string;                    (* [this.apiRoot + endpoint] *)
  req_method : string;
  req_params : list (string * string)  (* the body, sent as query parameters *)
}.

(** The fields of [this]; a field not assigned yet is [undefined]. *)
Record Bar : Type := mkBar {
  apiRoot : string;
  likes : value;
  dislikes : value;
  total : value;
  likeCount : value;       (* [this.likeCount.textContent] *)
  dislikeCount : value;    (* [this.dislikeCount.textContent] *)
  progress_value : value;  (* [this.progress.value] *)
  progress_max : value     (* [this.progress.max] *)
}.

Record World : Type := mkWorld {
  storage : option string;   (* [localStorage.getItem("ratings")], [None] for null *)
  puts : nat;                (* the calls of [localStorage.setItem] so far *)
  clock : Z;                 (* [Date.now()] *)
  href : string;             (* [window.location.href] *)
  net : nat -> reply;        (* the remote service: what the n-th request settles to *)
  sent : list request_log;   (* the requests issued so far, oldest first *)
  this : Bar
}.

Inductive result (A : Type) : Type :=
| Ok (a : A) (w : World)
| Throw (e : exn) (w : World)
| Beyond.
Arguments Ok {A} a w.
Arguments Throw {A} e w.
Arguments Beyond {A}.

Definition M (A : Type) : Type := World -> result A.

Definition ret {A} (a : A) : M A := fun w => Ok a w.

Definition bind {A B} (c : M A) (k : A -> M B) : M B :=
  fun w =>
    match c w with
    | Ok a w' => k a w'
    | Throw e w' => Throw e w'
    | Beyond => Beyond
    end.

Definition throw {A} (e : exn) : M A := fun w => Throw e w.

(** A pure step that the embedding may not cover. *)
Definition covered {A} (o : option A) : M A :=
  fun w => match o with Some a => Ok a w | None => Beyond end.

Definition read {A} (f : World -> A) : M A := fun w => Ok (f w) w.

Definition modify (f : World -> World) : M unit := fun w => Ok tt (f w).

Declare Scope js_scope.
Delimit Scope js_scope with js.
Notation "x <- c ;; k" := (bind c (fun x => k))
  (at level 100, c at next level, right associativity) : js_scope.
Notation "c ;;; k" := (bind c (fun _ => k))
  (at level 100, right associativity) : js_scope.

Definition with_this (f : Bar -> Bar) (w : World) : World :=
  mkWorld (storage w) (puts w) (clock w) (href w) (net w) (sent w) (f (this w)).

Definition set_likes (v : value) (b : Bar) : Bar :=
  mkBar (apiRoot b) v (dislikes b) (total b) (likeCount b) (dislikeCount b)
        (progress_value b) (progress_max b).

Definition set_dislikes (v : value) (b : Bar) : Bar :=
  mkBar (apiRoot b) (likes b) v (total b) (likeCount b) (dislikeCount b)
        (progress_value b) (progress_max b).

Definition set_total (v : value) (b : Bar) : Bar :=
  mkBar (apiRoot b) (likes b) (dislikes b) v (likeCount b) (dislikeCount b)
        (progress_value b) (progress_max b).

Definition set_counts (l d : value) (b : Bar) : Bar :=
  mkBar (apiRoot b) (likes b) (dislikes b) (total b) l d
        (progress_value b) (progress_max b).

Definition set_progress (v m : value) (b : Bar) : Bar :=
  mkBar (apiRoot b) (likes b) (dislikes b) (total b) (likeCount b)
        (dislikeCount b) v m.

(** [localStorage.setItem("ratings", s)]. *)
Definition setItem (s : string) (w : World) : World :=
  mkWorld (Some s) (S (puts w)) (clock w) (href w) (net w) (sent w) (this w).

(** The world [ms] milliseconds later. *)
Definition advance (ms : Z) (w : World) : World :=
  mkWorld (storage w) (puts w) (clock w + ms) (href w) (net w) (sent w) (this w).

(** The reply the next request will get. *)
Definition next_reply (w : World) : reply := net w (length (sent w)).

(** The world once the request [r] has been issued and has settled. *)
Definition settled (r : request_log) (w : World) : World :=
  mkWorld (storage w) (puts w) (clock w + delay (next_reply w)) (href w)
          (net w) (sent w ++ [r]) (this w).

(** [o.name] for one of the property names of the source ([expires],
    [likes], [dislikes], [error], [status]): a [TypeError] on [undefined] and
    [null], the own property of an object, and [undefined] on the other
    values, which have no property of those names. *)
Definition get_field (o : value) (name : string) : M value :=
  match o with
  | VUndef | VNull => throw TypeError
  | VObj m => ret (default VUndef (m !! name))
  | VBool _ | VNum _ | VStr _ | VArr _ => ret VUndef
  end.

(** [o[key]] for a computed key. *)
Definition get_key (o : value) (key : string) : M value :=
  match o with
  | VUndef | VNull => throw TypeError
  | VObj m => ret (default VUndef (m !! key))
  | VBool _ | VNum _ | VStr _ | VArr _ => covered None
  end.

(** [o[key] = v] in strict mode (a class body): the updated [o].  Creating a
    property on a primitive is a [TypeError]. *)
Definition set_key (o : value) (key : string) (v : value) : M value :=
  match o with
  | VObj m => ret (VObj (<[key := v]> m))
  | VUndef | VNull | VBool _ | VNum _ | VStr _ => throw TypeError
  | VArr _ => covered None
  end.

(** ** The methods of [class RatingBar] *)

Section RatingBar.

Context {platform : Platform}.
#[local] Open Scope js_scope.

(** The cache lifetime written by [setCache]: [1000 * 60 * 60] ms. *)
Definition TTL : Z := 1000 * 60 * 60.

(** The string transform of [getURL], applied to [host + path]. *)
Definition clean_url (url : string) : string :=
  (* remove trailing slash *)
  let url := Str.strip_trailing_slash url in
  (* remove www *)
  let url := Str.replace_first "www." "" url in
  url.

(** [getURL()]: a clean URL for the current page. *)
Definition getURL : M string :=
  url <- read href ;;
  match URL_new url with
  | None => throw TypeError
  | Some urlParts =>
      let path := pathname urlParts in
      let host := hostname urlParts in
      (* get only the parts we need *)
      ret (clean_url (host +:+ path))
  end.

(** [getAllCache()]. *)
Definition getAllCache : M value :=
  item <- read storage ;;
  (* localStorage.getItem("ratings") || false: null and "" are falsy *)
  match item with
  | None => ret empty_obj
  | Some rating =>
      if String.eqb rating "" then ret empty_obj
      else
        (* parse the rating *)
        match JSON_parse rating with
        | None => throw SyntaxError
        | Some parsed => ret (if truthy parsed then parsed else empty_obj)
        end
  end.

(** [getCached()]: the cached value, or [false]. *)
Definition getCached : M value :=
  url <- getURL ;;
  ratings <- getAllCache ;;
  entry <- get_key ratings url ;;
  if negb (truthy entry) then ret (VBool false)
  else
    (* check if the cache is expired *)
    expires <- get_field entry "expires" ;;
    now <- read clock ;;
    expired <- covered (JS.lt expires (int now)) ;;
    if expired then ret (VBool false)
    else
      (* return the cached value *)
      props <- covered (spread entry) ;;
      ret (VObj (<["url" := VStr url]> (<["cached" := VBool true]> props))).

(** [setCache(rating)]. *)
Definition setCache (rating : value) : M unit :=
  url <- getURL ;;
  (* get cache *)
  ratings <- getAllCache ;;
  (* set the expires *)
  props <- covered (spread rating) ;;
  now <- read clock ;;
  ratings <- set_key ratings url (VObj (<["expires" := int (now + TTL)]> props)) ;;
  (* set the rating *)
  modify (setItem (JSON_stringify ratings)).

(** [request(endpoint, method, body)] with its two awaits, [fetch] and
    [response.json()]. *)
Definition request (endpoint method : string) (body : list (string * string))
  : M value :=
  root <- read (fun w => apiRoot (this w)) ;;
  let url := root +:+ endpoint in
  fun w =>
    let w' := settled (mkRequest url method body) w in
    match settles (next_reply w) with
    | NetFail => Throw NetworkError w'
    | BadBody => Throw SyntaxError w'
    | Json v => Ok v w'
    end.

(** [update(updateCache)]: the presentation values, then the cache. *)
Definition update (updateCache : value) : M unit :=
  l <- read (fun w => likes (this w)) ;;
  d <- read (fun w => dislikes (this w)) ;;
  (* update the UI *)
  modify (with_this (set_counts l d)) ;;;
  t <- covered (JS.add l d) ;;
  modify (with_this (set_total t)) ;;;
  (* set the default values, then calculate the value *)
  positive <- covered (JS.lt (int 0) t) ;;
  vm <- (if positive : bool
         then v <- covered (JS.floor_div l t) ;; ret (v, t)
         else ret (int 1, int 2)) ;;
  (* update the progress bar *)
  modify (with_this (set_progress (fst vm) (snd vm))) ;;;
  (* update the cache *)
  if truthy updateCache
  then setCache (VObj (<["likes" := l]> (<["dislikes" := d]> ∅)))
  else ret tt.

(** [getRating()]: the rating for the current page. *)
Definition getRating : M value :=
  (* get the cached value *)
  cached <- getCached ;;
  if truthy cached then ret cached
  else
    (* make the request *)
    page <- read href ;;
    response <- request "rating" "GET" [("url", page)] ;;
    setCache response ;;;
    (* return the response *)
    ret response.

(** [load()]: fetch the rating and update the UI. *)
Definition load : M unit :=
  (* get the rating *)
  rating <- getRating ;;
  l <- get_field rating "likes" ;;
  modify (with_this (set_likes l)) ;;;
  d <- get_field rating "dislikes" ;;
  modify (with_this (set_dislikes d)) ;;;
  (* update the UI *)
  update rating.

(** [this.likes += 1] and [this.dislikes += 1]. *)
Definition incr_likes : M unit :=
  l <- read (fun w => likes (this w)) ;;
  l <- covered (JS.add l (int 1)) ;;
  modify (with_this (set_likes l)).

Definition incr_dislikes : M unit :=
  d <- read (fun w => dislikes (this w)) ;;
  d <- covered (JS.add d (int 1)) ;;
  modify (with_this (set_dislikes d)).

(** [this.likes -= 1] and [this.dislikes -= 1]. *)
Definition decr_likes : M unit :=
  l <- read (fun w => likes (this w)) ;;
  l <- covered (JS.sub l (int 1)) ;;
  modify (with_this (set_likes l)).

Definition decr_dislikes : M unit :=
  d <- read (fun w => dislikes (this w)) ;;
  d <- covered (JS.sub d (int 1)) ;;
  modify (with_this (set_dislikes d)).

Definition when (b : bool) (c : M unit) : M unit := if b then c else ret tt.

(** [like()]: like the current page. *)
Definition like : M unit :=
  (* make the request *)
  page <- read href ;;
  response <- request "rate" "GET" [("url", page); ("rating", "1")] ;;
  (* bail if failed *)
  error <- get_field response "error" ;;
  if truthy error then ret tt
  else
    (* when rating is successful *)
    status <- get_field response "status" ;;
    when (is_str status "success") incr_likes ;;;
    (* when rating is updated *)
    status <- get_field response "status" ;;
    when (is_str status "updated") (incr_likes ;;; decr_dislikes) ;;;
    (* update the UI *)
    update (VBool true).

(** [dislike()]: dislike the current page. *)
Definition dislike : M unit :=
  (* make the request *)
  page <- read href ;;
  response <- request "rate" "GET" [("url", page); ("rating", "0")] ;;
  (* when rating is successful *)
  status <- get_field response "status" ;;
  when (is_str status "success") incr_dislikes ;;;
  (* when rating is updated *)
  status <- get_field response "status" ;;
  when (is_str status "updated") (incr_dislikes ;;; decr_likes) ;;;
  (* update the UI *)
  update (VBool true).

End RatingBar.

(** ** A reference platform

    An executable [Platform] for running the methods on concrete worlds:
    [JSON.stringify] and [JSON.parse] on the values of [JS.value] (integer
    numbers, strings with the escapes of the quote and the backslash), and
    [new URL] on a serialised hierarchical URL
    [scheme://host:port/path?query#fragment], the form [location.href] has
    on a web page. *)

Module Reference.

Definition quote : ascii := ascii_of_nat 34.
Definition backslash : ascii := ascii_of_nat 92.

Fixpoint escape (s : string) : string :=
  match s with
  | EmptyString => EmptyString
  | String c s' =>
      if Ascii.eqb c quote || Ascii.eqb c backslash
      then String backslash (String c (escape s'))
      else String c (escape s')
  end.

Definition quoted (s : string) : string :=
  String quote (escape s +:+ String quote EmptyString).

Fixpoint join (sep : string) (l : list string) : string :=
  match l with
  | [] => EmptyString
  | [x] => x
  | x :: l' => x +:+ sep +:+ join sep l'
  end.

Definition print_num (n : num) : string :=
  match n with
  | NaN => "null"
  | Int z => pretty z
  end.

(** [JSON.stringify]: a property whose value is [undefined] is left out,
    [undefined] in an array and [NaN] are written [null].  The properties of
    an object are written in the order of the map. *)
Fixpoint stringify (v : value) : string :=
  match v with
  | VUndef | VNull => "null"
  | VBool b => if b then "true" else "false"
  | VNum n => print_num n
  | VStr s => quoted s
  | VArr l => "[" +:+ join "," (List.map stringify l) +:+ "]"
  | VObj m =>
      "{" +:+ join ","
        (map_fold (fun k x acc =>
                     match x with
                     | VUndef => acc
                     | _ => (quoted k +:+ ":" +:+ stringify x) :: acc
                     end) [] m) +:+ "}"
  end.

Definition is_ws (c : ascii) : bool :=
  Ascii.eqb c " " || Ascii.eqb c (ascii_of_nat 9)
  || Ascii.eqb c (ascii_of_nat 10) || Ascii.eqb c (ascii_of_nat 13).

Fixpoint skip_ws (s : string) : string :=
  match s with
  | String c s' => if is_ws c then skip_ws s' else s
  | EmptyString => s
  end.

Definition digit (c : ascii) : option Z :=
  let n := Z.of_nat (nat_of_ascii c) in
  if (48 <=? n) && (n <=? 57) then Some (n - 48) else None.

Fixpoint digits (acc : Z) (s : string) : Z * string :=
  match s with
  | String c s' =>
      match digit c with
      | Some d => digits (10 * acc + d) s'
      | None => (acc, s)
      end
  | EmptyString => (acc, s)
  end.

(** An integer literal without sign: [0], or digits not starting with 0;
    a fraction or an exponent is outside the fragment. *)
Definition natural (s : string) : option (Z * string) :=
  match s with
  | String c s' =>
      match digit c with
      | Some d =>
          let '(n, rest) := if d =? 0 then (0, s') else digits d s' in
          match rest with
          | String r _ =>
              if match digit r with Some _ => true | None => false end
                 || Ascii.eqb r "." || Ascii.eqb r "e" || Ascii.eqb r "E"
              then None else Some (n, rest)
          | EmptyString => Some (n, rest)
          end
      | None => None
      end
  | EmptyString => None
  end.

(** The characters of a string literal, after its opening quote. *)
Fixpoint chars (s : string) : option (string * string) :=
  match s with
  | EmptyString => None
  | String c s' =>
      if Ascii.eqb c quote then Some (EmptyString, s')
      else if Ascii.eqb c backslash then
        match s' with
        | String e s'' =>
            if Ascii.eqb e quote || Ascii.eqb e backslash || Ascii.eqb e "/"
            then match chars s'' with
                 | Some (t, rest) => Some (String e t, rest)
                 | None => None
                 end
            else None
        | EmptyString => None
        end
      else match chars s' with
           | Some (t, rest) => Some (String c t, rest)
           | None => None
           end
  end.

Definition keyword (k : string) (v : value) (s : string)
  : option (value * string) :=
  if String.prefix k s then Some (v, Str.drop (String.length k) s) else None.

Fixpoint parse_value (fuel : nat) (s : string) : option (value * string) :=
  match fuel with
  | O => None
  | S fuel =>
      match skip_ws s with
      | EmptyString => None
      | String c s' as t =>
          if Ascii.eqb c "n" then keyword "null" VNull t
          else if Ascii.eqb c "t" then keyword "true" (VBool true) t
          else if Ascii.eqb c "f" then keyword "false" (VBool false) t
          else if Ascii.eqb c quote then
            match chars s' with
            | Some (x, rest) => Some (VStr x, rest)
            | None => None
            end
          else if Ascii.eqb c "-" then
            match natural s' with
            | Some (n, rest) => Some (int (- n), rest)
            | None => None
            end
          else if Ascii.eqb c "[" then
            match skip_ws s' with
            | String "]" rest => Some (VArr [], rest)
            | _ => parse_elements fuel s' []
            end
          else if Ascii.eqb c "{" then
            match skip_ws s' with
            | String "}" rest => Some (VObj ∅, rest)
            | _ => parse_members fuel s' ∅
            end
          else
            match natural t with
            | Some (n, rest) => Some (int n, rest)
            | None => None
            end
      end
  end
with parse_elements (fuel : nat) (s : string) (acc : list value)
  : option (value * string) :=
  match fuel with
  | O => None
  | S fuel =>
      match parse_value fuel s with
      | Some (v, rest) =>
          match skip_ws rest with
          | String c rest' =>
              if Ascii.eqb c "," then parse_elements fuel rest' (acc ++ [v])
              else if Ascii.eqb c "]" then Some (VArr (acc ++ [v]), rest')
              else None
          | EmptyString => None
          end
      | None => None
      end
  end
with parse_members (fuel : nat) (s : string) (acc : gmap string value)
  : option (value * string) :=
  match fuel with
  | O => None
  | S fuel =>
      match skip_ws s with
      | String q s' =>
          if Ascii.eqb q quote then
            match chars s' with
            | Some (k, rest) =>
                match skip_ws rest with
                | String ":" rest' =>
                    match parse_value fuel rest' with
                    | Some (v, rest'') =>
                        match skip_ws rest'' with
                        | String c more =>
                            if Ascii.eqb c ","
                            then parse_members fuel more (<[k := v]> acc)
                            else if Ascii.eqb c "}"
                            then Some (VObj (<[k := v]> acc), more)
                            else None
                        | EmptyString => None
                        end
                    | None => None
                    end
                | _ => None
                end
            | None => None
            end
          else None
      | EmptyString => None
      end
  end.

(** [JSON.parse]: one value, with nothing but white space around it. *)
Definition parse (s : string) : option value :=
  match parse_value (2 * String.length s + 2) s with
  | Some (v, rest) =>
      match skip_ws rest with
      | EmptyString => Some v
      | String _ _ => None
      end
  | None => None
  end.

(** [s] split before the first character satisfying [p]. *)
Fixpoint break (p : ascii -> bool) (s : string) : string * string :=
  match s with
  | EmptyString => (EmptyString, EmptyString)
  | String c s' =>
      if p c then (EmptyString, s)
      else let '(a, b) := break p s' in (String c a, b)
  end.

Definition lower (c : ascii) : ascii :=
  let n := nat_of_ascii c in
  if (Nat.leb 65 n && Nat.leb n 90)%bool then ascii_of_nat (n + 32) else c.

Fixpoint lowercase (s : string) : string :=
  match s with
  | EmptyString => EmptyString
  | String c s' => String (lower c) (lowercase s')
  end.

(** The text after the last [@] of the authority (the user information is
    dropped). *)
Fixpoint after_userinfo (s : string) : string :=
  match s with
  | EmptyString => EmptyString
  | String _ s' => if Str.occurs "@" s then after_userinfo s' else s
  end.

Definition url_new (s : string) : option URL :=
  let '(scheme, rest) := break (fun c => Ascii.eqb c ":") s in
  if String.eqb scheme "" || negb (String.prefix "://" rest) then None
  else
    let rest := Str.drop 3 rest in
    let '(authority, rest) :=
      break (fun c => Ascii.eqb c "/" || Ascii.eqb c "?" || Ascii.eqb c "#") rest in
    let '(host, _) := break (fun c => Ascii.eqb c ":") (after_userinfo authority) in
    let '(path, _) := break (fun c => Ascii.eqb c "?" || Ascii.eqb c "#") rest in
    if String.eqb host "" then None
    else Some (mkURL (lowercase host) (if String.eqb path "" then "/" else path)).

End Reference.

#[export] Instance Reference_platform : Platform := {|
  JSON_parse := Reference.parse;
  JSON_stringify := Reference.stringify;
  URL_new := Reference.url_new
|}.

(** ** Vocabulary of the statements *)

Section Vocabulary.

Context {platform : Platform}.

(** [k] is the cache key of the page shown in [w]. *)
Definition page (w : World) (k : string) : Prop := getURL w = Ok k w.

(** The cache store of [w] holds the table [m]. *)
Definition holds (w : World) (m : gmap string value) : Prop :=
  getAllCache w = Ok (VObj m) w.

(** The platform reads back the value it wrote, as a non-empty text. *)
Definition roundtrips (v : value) : Prop :=
  JSON_stringify v <> "" /\ JSON_parse (JSON_stringify v) = Some v.

(** The object literal [{ likes: l, dislikes: d }]. *)
Definition tally (l d : value) : gmap string value :=
  <["likes" := l]> (<["dislikes" := d]> ∅).

(** [{...props, expires: now + TTL}]: the entry written at time [now]. *)
Definition entry_at (now : Z) (props : gmap string value) : gmap string value :=
  <["expires" := int (now + TTL)]> props.

(** [{...entry, cached: true, url}]: an entry as [getCached] returns it. *)
Definition served (k : string) (entry : gmap string value) : gmap string value :=
  <["url" := VStr k]> (<["cached" := VBool true]> entry).


(** What [update] shows for the counters [l] and [d]: the total, and the
    value and the maximum of the progress bar. *)
Definition presentation (l d : value) : option (value * value * value) :=
  match JS.add l d with
  | Some t =>
      match JS.lt (int 0) t with
      | Some true =>
          match JS.floor_div l t with
          | Some v => Some (t, v, t)
          | None => None
          end
      | Some false => Some (t, int 1, int 2)
      | None => None
      end
  | None => None
  end.

(** The fields of [this] once [update] has shown [l] and [d]. *)
Definition shown (l d t v mx : value) (b : Bar) : Bar :=
  mkBar (apiRoot b) l d t l d v mx.


Definition rate_request (w : World) (flag : string) : request_log :=
  mkRequest (apiRoot (this w) +:+ "rate") "GET" [("url", href w); ("rating", flag)].

(** The counters of [this] are the integers [l] and [d]. *)
Definition counts (w : World) (l d : Z) : Prop :=
  likes (this w) = int l /\ dislikes (this w) = int d.

(** Both counters are integers and none is negative. *)
Definition nonneg (w : World) : Prop :=
  exists l d, counts w l d /\ 0 <= l /\ 0 <= d.

Inductive vote : Type := Like | Dislike.

Definition cast (v : vote) : M unit :=
  match v with Like => like | Dislike => dislike end.

(** The world a call leaves behind, whether it returned or threw. *)
Definition after {A} (r : result A) : option World :=
  match r with
  | Ok _ w | Throw _ w => Some w
  | Beyond => None
  end.

(** The handlers called one after the other, each call running to its end
    before the next one starts. *)
Fixpoint run (votes : list vote) (w : World) : option World :=
  match votes with
  | [] => Some w
  | v :: votes' =>
      match after (cast v w) with
      | Some w' => run votes' w'
      | None => None
      end
  end.

(** How a handler reads the reply to its request: a first vote recorded,
    an opposite vote converted, a vote not accepted, or no usable reply
    (the request fails, or the reply has no properties to read).  [like]
    looks at the [error] flag before the [status]; [dislike] looks at the
    [status] only. *)
Inductive verdict : Type := Created | Switched | Rejected | Failure.

Definition property (response : value) (name : string) : value :=
  match response with
  | VObj r => default VUndef (r !! name)
  | _ => VUndef
  end.

Definition verdict_of (v : vote) (o : outcome) : verdict :=
  match o with
  | NetFail | BadBody | Json VUndef | Json VNull => Failure
  | Json response =>
      if match v with
         | Like => truthy (property response "error")
         | Dislike => false
         end
      then Rejected
      else if is_str (property response "status") "success" then Created
      else if is_str (property response "status") "updated" then Switched
      else Rejected
  end.

(** The verdict of the next call of the handler of [v]. *)
Definition next_verdict (v : vote) (w : World) : verdict :=
  verdict_of v (settles (next_reply w)).

(** The counters [(likes, dislikes)] after a vote with the given verdict:
    one more of the chosen kind when created; when switched, one less of
    the opposite kind as well. *)
Definition voted (v : vote) (r : verdict) (l d : Z) : Z * Z :=
  match r, v with
  | Created, Like => (l + 1, d)
  | Created, Dislike => (l, d + 1)
  | Switched, Like => (l + 1, d - 1)
  | Switched, Dislike => (l - 1, d + 1)
  | (Rejected | Failure), _ => (l, d)
  end.

(** The count that a switched vote takes one from. *)
Definition opposite (v : vote) (w : World) : value :=
  match v with Like => dislikes (this w) | Dislike => likes (this w) end.

(** No switched vote arrives while the opposite count is below one. *)
Fixpoint guarded (votes : list vote) (w : World) : Prop :=
  match votes with
  | [] => True
  | v :: votes' =>
      (next_verdict v w = Switched -> exists n, opposite v w = int n /\ 1 <= n)
      /\ match after (cast v w) with
         | Some w' => guarded votes' w'
         | None => True
         end
  end.

(** A computation that only reads: whatever it returns, the world is the
    same. *)
Definition reads {A} (c : M A) : Prop :=
  forall w, match c w with
            | Ok _ w' | Throw _ w' => w' = w
            | Beyond => True
            end.

(** Computations that keep a relation between the world before and the
    world after, whatever the outcome. *)
Definition keeps {A} (R : World -> World -> Prop) (c : M A) : Prop :=
  forall w, match c w with
            | Ok _ w' | Throw _ w' => R w w'
            | Beyond => True
            end.

Definition same_this (w w' : World) : Prop := this w' = this w.

Definition same_tally (w w' : World) : Prop :=
  likes (this w') = likes (this w) /\ dislikes (this w') = dislikes (this w).

Definition nullish (v : value) : bool :=
  match v with VUndef | VNull => true | _ => false end.

(** The stored item does not parse to an array, and the platform does not
    read an array back from an object it wrote. *)
Definition no_array (w : World) : Prop :=
  forall s a, storage w = Some s -> JSON_parse s <> Some (VArr a).

Definition writes_objects : Prop :=
  forall m a, JSON_parse (JSON_stringify (VObj m)) <> Some (VArr a).

(** How a vote handler ends: it returns or throws in [w2], or it goes on
    with [update(true)] from [w2]. *)
Definition ends_in (r : result unit) (w2 : World) : Prop :=
  r = Ok tt w2 \/ (exists e, r = Throw e w2) \/ r = update (VBool true) w2.

End Vocabulary.

(** ** Concrete worlds *)

Module Scenario.

(** A bar with the default [apiRoot] and the counters [l] and [d]. *)
Definition bar (l d : value) : Bar :=
  mkBar "http://www.dislike-everywhere.test/" l d VUndef VUndef VUndef VUndef VUndef.

(** A remote service that gives the replies of [l], then fails. *)
Definition service (l : list reply) : nat -> reply :=
  fun n => nth n l (mkReply 0 NetFail).

Definition world (item : option string) (now : Z) (location : string)
  (replies : list reply) (b : Bar) : World :=
  mkWorld item 0 now location (service replies) [] b.

Definition answer (v : value) : reply := mkReply 0 (Json v).

(** A cache table with one entry [{likes, dislikes, expires}]. *)
Definition table (k : string) (l d expires : Z) : gmap string value :=
  <[k := VObj (<["expires" := int expires]> (tally (int l) (int d)))]> ∅.

(** The page of the examples, and its cache key. *)
Definition location : string := "https://www.example.com/path/".
Definition key : string := "example.com/path".

(** Replies of the remote service. *)
Definition created : reply := answer (VObj {["status" := VStr "success"]}).
Definition switched : reply := answer (VObj {["status" := VStr "updated"]}).
Definition error_flagged : reply := answer (VObj {["error" := VBool true]}).

(** The stored item is not JSON. *)
Definition corrupt : World :=
  world (Some "{") 1000 location [] (bar VUndef VUndef).

(** The cache holds [{likes: 5, dislikes: 3}] for the page, expiring at
    [expires]; the clock shows [now]. *)
Definition cached (expires now : Z) (replies : list reply) : World :=
  world (Some (Reference.stringify (VObj (table key 5 3 expires)))) now
        location replies (bar VUndef VUndef).

(** Nothing is stored; the counters are [l] and [d]. *)
Definition ready (l d : Z) (replies : list reply) : World :=
  world None 1000 location replies (bar (int l) (int d)).

End Scenario.

(** ** The constructor *)

Section Constructor.

Context {platform : Platform}.
#[local] Open Scope js_scope.

(** The default of [settings.apiRoot]. *)
Definition default_apiRoot : string := "http://www.dislike-everywhere.test/".

(** [{ apiRoot: "...", ...settings }]: a property of [settings] replaces
    the default. *)
Definition merge_settings (settings : gmap string value) : gmap string value :=
  settings ∪ {["apiRoot" := VStr default_apiRoot]}.

(** The fields of [this] once the element of [getElement] is attached and
    its parts are looked up: the two count spans of the template are empty,
    its progress element has [value="0" max="100"], and the counters are not
    assigned yet. *)
Definition attached (root : string) : Bar :=
  mkBar root VUndef VUndef VUndef (VStr "") (VStr "") (int 0) (int 100).

(** A call of an [async] method whose promise is dropped: the caller goes
    on, whether the promise is fulfilled or rejected, and a rejection is
    thrown to nobody.  As for every [async] method here, the world is the
    one in which the promise has settled. *)
Definition detached (c : M unit) : M unit :=
  fun w =>
    match c w with
    | Ok _ w' | Throw _ w' => Ok tt w'
    | Beyond => Beyond
    end.

Definition as_string (v : value) : option string :=
  match v with
  | VStr s => Some s
  | _ => None
  end.

(** [new RatingBar(root, settings)] on a node [root] that takes the
    element: the settings, the element and its parts, then [this.load()],
    which is not awaited.  The click listeners bound here call [like] and
    [dislike] ([cast]).  An [apiRoot] that is not a string would be
    concatenated after a conversion to a string, which the embedding does
    not cover. *)
Definition constructor (settings : value) : M unit :=
  props <- covered (spread settings) ;;
  let settings := merge_settings props in
  (* settings *)
  apiRoot <- covered (as_string (default VUndef (settings !! "apiRoot"))) ;;
  (* get the root, get the elements from the root *)
  modify (with_this (fun _ => attached apiRoot)) ;;;
  (* load the rating *)
  detached load.

(** [settings] makes the constructor choose [root]: its own [apiRoot], or
    the default when it has none. *)
Definition configured (settings : value) (root : string) : Prop :=
  exists props,
    spread settings = Some props
    /\ (props !! "apiRoot" = Some (VStr root)
        \/ (props !! "apiRoot" = None /\ root = default_apiRoot)).


End Constructor.

(** ** Vocabulary of the session properties *)

Section SessionVocabulary.

Context {platform : Platform}.
#[local] Open Scope js_scope.

(** What a handler does once its request has yielded [response]. *)
Definition on_reply (v : vote) (response : value) : M unit :=
  match v with
  | Like =>
      error <- get_field response "error" ;;
      if truthy error then ret tt
      else
        status <- get_field response "status" ;;
        when (is_str status "success") incr_likes ;;;
        status <- get_field response "status" ;;
        when (is_str status "updated") (incr_likes ;;; decr_dislikes) ;;;
        update (VBool true)
  | Dislike =>
      status <- get_field response "status" ;;
      when (is_str status "success") incr_dislikes ;;;
      status <- get_field response "status" ;;
      when (is_str status "updated") (incr_dislikes ;;; decr_likes) ;;;
      update (VBool true)
  end.

(** The [rating] parameter a vote sends. *)
Definition flag_of (v : vote) : string :=
  match v with Like => "1" | Dislike => "0" end.

(** Nothing but the stored item and the fields of [this] other than
    [apiRoot] differs. *)
Definition same_env (w w' : World) : Prop :=
  sent w' = sent w /\ clock w' = clock w /\ href w' = href w
  /\ net w' = net w /\ apiRoot (this w') = apiRoot (this w).

(** The stored item is a text that [JSON.parse] rejects. *)
Definition unparsable (w : World) : Prop :=
  exists s, storage w = Some s /\ s <> "" /\ JSON_parse s = None.


(** The handler changes the counters: the vote is recorded or converted. *)
Definition accepted (r : verdict) : bool :=
  match r with Created | Switched => true | Rejected | Failure => false end.

(** The number of votes of a sequence that the service records as new
    ones. *)
Fixpoint recorded (votes : list vote) (w : World) : Z :=
  match votes with
  | [] => 0
  | v :: votes' =>
      (match next_verdict v w with Created => 1 | _ => 0 end)
      + match after (cast v w) with
        | Some w' => recorded votes' w'
        | None => 0
        end
  end.

(** [s] ends with a slash. *)
Fixpoint ends_with_slash (s : string) : bool :=
  match s with
  | EmptyString => false
  | String c s' =>
      match s' with
      | EmptyString => Ascii.eqb c "/"
      | String _ _ => ends_with_slash s'
      end
  end.

(** The table [m] with the entry [{likes: l, dislikes: d}] written at time
    [now] under the key [k]. *)
Definition renewed (k : string) (l d : Z) (m : gmap string value) (now : Z)
  : gmap string value :=
  <[k := VObj (entry_at now (tally (int l) (int d)))]> m.

(** A visit of the page [ms] milliseconds later: a bar is constructed with
    [settings]. *)
Definition visit (settings : value) (ms : Z) (w : World) : option World :=
  after (constructor settings (advance ms w)).

Fixpoint visits (settings : value) (delays : list Z) (w : World) : option World :=
  match delays with
  | [] => Some w
  | ms :: delays' =>
      match visit settings ms w with
      | Some w' => visits settings delays' w'
      | None => None
      end
  end.

(** The times of the visits that start at [now]. *)
Fixpoint times (now : Z) (delays : list Z) : list Z :=
  match delays with
  | [] => []
  | ms :: delays' => (now + ms) :: times (now + ms) delays'
  end.

End SessionVocabulary.

Section SessionLog.

Context {platform : Platform}.



End SessionLog.

(** ** More concrete worlds *)

Module Cases.
Import Scenario.


(** The stored item is not JSON; the counters are [l] and [d]. *)
Definition broken (l d : Z) (replies : list reply) : World :=
  world (Some "{") 1000 location replies (bar (int l) (int d)).



(** The entry of the page has no [expires]. *)
Definition undated : gmap string value := <[key := VObj (tally (int 5) (int 3))]> ∅.

Definition with_undated : World :=
  world (Some (Reference.stringify (VObj undated))) 1000 location []
        (bar VUndef VUndef).

(** The entry [{likes: 5, dislikes: 3}] of the page has just been written. *)
Definition just_written : World :=
  world (Some (Reference.stringify (VObj (renewed key 5 3 ∅ 1000)))) 1000
        location [] (bar VUndef VUndef).

(** The service answers [{likes: 7, dislikes: 2}]. *)
Definition seven_two : reply := answer (VObj (tally (int 7) (int 2))).

End Cases.

(** * Properties *)

(** ** Strings *)

Module StrFacts.
Import Str.

Lemma prefix_strip (p s : string) :
  String.prefix p (strip_trailing_slash s) = true -> String.prefix p s = true.
Proof.
  revert p. induction s as [|c s IH]; intros p; [done|].
  destruct p as [|a p]; [done|].
  destruct s as [|d s].
  - cbn. destruct (Ascii.eqb c "/"); [done|]. cbn. done.
  - change (strip_trailing_slash (String c (String d s)))
      with (String c (strip_trailing_slash (String d s))).
    cbn [String.prefix]. destruct (ascii_dec a c); [|done]. apply IH.
Qed.

Lemma occurs_strip (p s : string) :
  occurs p s = false -> occurs p (strip_trailing_slash s) = false.
Proof.
  induction s as [|c s IH]; [done|].
  cbn [occurs]. destruct (String.prefix p (String c s)) eqn:Hp; [done|].
  intros H. destruct s as [|d s].
  - cbn [strip_trailing_slash]. destruct (Ascii.eqb c "/").
    + destruct p; [done|]. done.
    + cbn [occurs]. by rewrite Hp.
  - change (strip_trailing_slash (String c (String d s)))
      with (String c (strip_trailing_slash (String d s))).
    cbn [occurs].
    destruct (String.prefix p (String c (strip_trailing_slash (String d s)))) eqn:Hq.
    + apply (prefix_strip p (String c (String d s))) in Hq. congruence.
    + by apply IH.
Qed.

Lemma replace_first_absent (p rep s : string) :
  occurs p s = false -> replace_first p rep s = s.
Proof.
  induction s as [|c s IH]; cbn [occurs replace_first].
  - destruct (String.prefix p ""); done.
  - destruct (String.prefix p (String c s)); [done|].
    intros H. by rewrite IH.
Qed.

Lemma strip_twice (s : string) :
  ends_with_slashes s = false ->
  strip_trailing_slash (strip_trailing_slash s) = strip_trailing_slash s.
Proof.
  induction s as [|c s IH]; [done|].
  destruct s as [|d s].
  - intros _. cbn. destruct (Ascii.eqb c "/") eqn:E; [done|]. cbn. by rewrite E.
  - destruct s as [|e s].
    + cbn [ends_with_slashes strip_trailing_slash].
      destruct (Ascii.eqb d "/") eqn:Ed.
      * rewrite andb_true_r. intros Ec. by rewrite Ec.
      * intros _. cbn [strip_trailing_slash]. by rewrite Ed.
    + intros H.
      change (strip_trailing_slash (String c (String d (String e s))))
        with (String c (strip_trailing_slash (String d (String e s)))).
      assert (Hs : ends_with_slashes (String d (String e s)) = false) by exact H.
      specialize (IH Hs).
      change (strip_trailing_slash (String d (String e s)))
        with (String d (strip_trailing_slash (String e s))) in *.
      change (strip_trailing_slash (String c (String d (strip_trailing_slash (String e s)))))
        with (String c (strip_trailing_slash (String d (strip_trailing_slash (String e s))))).
      by rewrite IH.
Qed.

Lemma strip_www (r : string) :
  strip_trailing_slash ("www." +:+ r) = "www." +:+ strip_trailing_slash r.
Proof. destruct r as [|c r]; [done|]. reflexivity. Qed.

Lemma prefix_app (p s : string) : String.prefix p (p +:+ s) = true.
Proof.
  induction p as [|a p IH]; [by destruct s|].
  change (String a p +:+ s) with (String a (p +:+ s)).
  cbn [String.prefix]. by destruct (ascii_dec a a).
Qed.

Lemma drop_app (p s : string) : drop (String.length p) (p +:+ s) = s.
Proof. induction p as [|a p IH]; [done|]. exact IH. Qed.

Lemma replace_first_prefix (p rep s : string) :
  replace_first p rep (p +:+ s) = rep +:+ s.
Proof.
  assert (Hunfold : forall t, replace_first p rep t =
            if String.prefix p t then rep +:+ drop (String.length p) t
            else match t with
                 | EmptyString => EmptyString
                 | String c t' => String c (replace_first p rep t')
                 end) by (by intros []).
  by rewrite Hunfold, prefix_app, drop_app.
Qed.

End StrFacts.

(** ** The cache store: [getAllCache], [getCached], [setCache] *)

Section CacheStore.

Context {platform : Platform}.

Lemma bind_ok {A B} (c : M A) (k : A -> M B) w a w' :
  c w = Ok a w' -> bind c k w = k a w'.
Proof. unfold bind. by intros ->. Qed.

Lemma getURL_unfold w :
  getURL w = match URL_new (href w) with
             | Some u => Ok (clean_url (hostname u +:+ pathname u)) w
             | None => Throw TypeError w
             end.
Proof. unfold getURL, bind, read. by destruct (URL_new (href w)). Qed.

Lemma getAllCache_unfold w :
  getAllCache w =
    match storage w with
    | None => Ok empty_obj w
    | Some s =>
        if String.eqb s "" then Ok empty_obj w
        else match JSON_parse s with
             | None => Throw SyntaxError w
             | Some v => Ok (if truthy v then v else empty_obj) w
             end
    end.
Proof.
  unfold getAllCache, bind, read. destruct (storage w) as [s|]; [|done].
  destruct (String.eqb s ""); [done|]. by destruct (JSON_parse s).
Qed.

(** The key depends on [href] only, the table on the stored item only. *)
Lemma page_frame w w' k : href w' = href w -> page w k -> page w' k.
Proof.
  unfold page. rewrite !getURL_unfold. intros ->.
  destruct (URL_new (href w)); [|done]. by intros [= ->].
Qed.

Lemma holds_frame w w' m : storage w' = storage w -> holds w m -> holds w' m.
Proof.
  unfold holds. rewrite !getAllCache_unfold. intros ->.
  destruct (storage w) as [s|].
  - destruct (String.eqb s ""); [by intros [= <-]|].
    destruct (JSON_parse s); [|done]. by intros [= ->].
  - by intros [= <-].
Qed.

Lemma holds_written w m :
  roundtrips (VObj m) -> holds (setItem (JSON_stringify (VObj m)) w) m.
Proof.
  intros [Hne Hrt]. unfold holds. rewrite getAllCache_unfold. cbn [storage setItem].
  apply String.eqb_neq in Hne. by rewrite Hne, Hrt.
Qed.

Lemma getCached_entry w k m e x :
  page w k -> holds w m -> m !! k = Some (VObj e) ->
  e !! "expires" = Some (int x) ->
  getCached w = if x <? clock w then Ok (VBool false) w else Ok (VObj (served k e)) w.
Proof.
  intros Hk Hm Hmk He. unfold getCached.
  rewrite (bind_ok _ _ _ _ _ Hk), (bind_ok _ _ _ _ _ Hm).
  unfold get_key, bind, ret. rewrite Hmk. cbn. rewrite He. cbn.
  by destruct (x <? clock w).
Qed.


Lemma reads_ret {A} (a : A) : reads (ret a).
Proof. by intros w. Qed.

Lemma reads_throw {A} e : reads (@throw A e).
Proof. by intros w. Qed.

Lemma reads_read {A} (f : World -> A) : reads (read f).
Proof. by intros w. Qed.

Lemma reads_covered {A} (o : option A) : reads (covered o).
Proof. intros w. by destruct o. Qed.

Lemma reads_bind {A B} (c : M A) (k : A -> M B) :
  reads c -> (forall a, reads (k a)) -> reads (bind c k).
Proof.
  intros Hc Hk w. unfold bind. specialize (Hc w).
  destruct (c w) as [a w'|e w'|]; [|done|done].
  subst w'. apply Hk.
Qed.


Lemma reads_get_field o name : reads (get_field o name).
Proof. destruct o; first [apply reads_ret | apply reads_throw]. Qed.


Lemma reads_getURL : reads getURL.
Proof.
  apply reads_bind; [apply reads_read|]. intros url.
  destruct (URL_new url); [apply reads_ret | apply reads_throw].
Qed.

Lemma reads_getAllCache : reads getAllCache.
Proof.
  apply reads_bind; [apply reads_read|]. intros [s|]; [|apply reads_ret].
  destruct (String.eqb s ""); [apply reads_ret|].
  destruct (JSON_parse s); [apply reads_ret | apply reads_throw].
Qed.


Lemma setCache_object w k m r :
  page w k -> holds w m ->
  setCache (VObj r) w =
    Ok tt (setItem (JSON_stringify (VObj (<[k := VObj (entry_at (clock w) r)]> m))) w).
Proof.
  intros Hk Hm. unfold setCache.
  by rewrite (bind_ok _ _ _ _ _ Hk), (bind_ok _ _ _ _ _ Hm).
Qed.

End CacheStore.

Section CacheStoreProperties.

Context {platform : Platform}.

(** C3 (amended).  [getAllCache] returns the empty table when nothing or
    the empty text is stored; when the stored text parses it returns the
    parsed value, or the empty table if that value is falsy; when the
    stored text does not parse, the [SyntaxError] of [JSON.parse] leaves
    [getAllCache]: there is no handler around the call. *)
Theorem getAllCache_parses_or_throws (w : World) (s : string) :
  (storage w = None \/ storage w = Some "" -> getAllCache w = Ok empty_obj w)
  /\ (storage w = Some s -> s <> "" ->
      match JSON_parse s with
      | Some v => getAllCache w = Ok (if truthy v then v else empty_obj) w
      | None => getAllCache w = Throw SyntaxError w
      end).
Proof.
  rewrite getAllCache_unfold. split.
  - by intros [-> | ->].
  - intros -> Hs. apply String.eqb_neq in Hs. rewrite Hs.
    by destruct (JSON_parse s).
Qed.

(** C5 (amended).  For an entry stored under the key of the page,
    [getCached] returns [false] whenever [expires < now]; at
    [now = expires] and before, it returns the entry (with [cached] and
    [url] added).  Expired or not, the read leaves the world, and so the
    stored table, as it was. *)
Theorem getCached_expiry (w : World) (k : string) (m e : gmap string value) (x : Z) :
  page w k -> holds w m -> m !! k = Some (VObj e) ->
  e !! "expires" = Some (int x) ->
  (x < clock w -> getCached w = Ok (VBool false) w)
  /\ (clock w <= x -> getCached w = Ok (VObj (served k e)) w)
  /\ (forall r w', getCached w = Ok r w' -> storage w' = storage w /\ puts w' = puts w).
Proof.
  intros Hk Hm Hmk He. rewrite (getCached_entry w k m e x Hk Hm Hmk He).
  split; [|split].
  - intros Hlt. apply Z.ltb_lt in Hlt. by rewrite Hlt.
  - intros Hle. apply Z.ltb_ge in Hle. by rewrite Hle.
  - intros r w'. destruct (x <? clock w); by intros [= _ <-].
Qed.


End CacheStoreProperties.

(** ** The session: [request], [getRating], [update], [like], [dislike] *)

Section Session.
Context {platform : Platform}.

Lemma request_unfold endpoint method body w :
  request endpoint method body w =
    let w1 := settled (mkRequest (apiRoot (this w) +:+ endpoint) method body) w in
    match settles (next_reply w) with
    | NetFail => Throw NetworkError w1
    | BadBody => Throw SyntaxError w1
    | Json v => Ok v w1
    end.
Proof. reflexivity. Qed.

Lemma getRating_hit w c :
  getCached w = Ok c w -> truthy c = true -> getRating w = Ok c w.
Proof. intros Hc Ht. unfold getRating. rewrite (bind_ok _ _ _ _ _ Hc). by rewrite Ht. Qed.


Lemma update_spec w flag l d t v mx :
  likes (this w) = l -> dislikes (this w) = d ->
  presentation l d = Some (t, v, mx) ->
  update flag w =
    (if truthy flag then setCache (VObj (tally l d)) else ret tt)
      (with_this (shown l d t v mx) w).
Proof.
  intros <- <-. unfold presentation, update.
  unfold bind, read, modify, covered. cbn -[JS.add JS.lt JS.floor_div].
  destruct (JS.add _ _) as [t'|]; [|done].
  destruct (JS.lt (int 0) t') as [[]|]; [| |done].
  - destruct (JS.floor_div _ t') as [v'|]; [|done].
    by intros [= <- <- <-].
  - by intros [= <- <- <-].
Qed.

Lemma keeps_bind {A B} (R : World -> World -> Prop) (c : M A) (k : A -> M B) :
  (forall x y z, R x y -> R y z -> R x z) ->
  keeps R c -> (forall a, keeps R (k a)) -> keeps R (bind c k).
Proof.
  intros Htrans Hc Hk w. unfold bind. specialize (Hc w).
  destruct (c w) as [a w1|e w1|]; [|done|done].
  specialize (Hk a w1). destruct (k a w1); eauto.
Qed.

Lemma keeps_reads {A} (R : World -> World -> Prop) (c : M A) :
  (forall x, R x x) -> reads c -> keeps R c.
Proof.
  intros Hrefl Hc w. specialize (Hc w).
  destruct (c w); [by subst | by subst | done].
Qed.

Lemma keeps_modify (R : World -> World -> Prop) (f : World -> World) :
  (forall w, R w (f w)) -> keeps R (modify f).
Proof. intros Hf w. apply Hf. Qed.

Lemma same_this_trans x y z : same_this x y -> same_this y z -> same_this x z.
Proof. unfold same_this. congruence. Qed.

Lemma same_tally_trans x y z : same_tally x y -> same_tally y z -> same_tally x z.
Proof. unfold same_tally. intros [] []. split; congruence. Qed.

Lemma keeps_setCache rating : keeps same_this (setCache rating).
Proof.
  apply keeps_bind; [apply same_this_trans | by apply keeps_reads, reads_getURL |].
  intros url.
  apply keeps_bind; [apply same_this_trans | by apply keeps_reads, reads_getAllCache |].
  intros ratings.
  apply keeps_bind; [apply same_this_trans | by apply keeps_reads, reads_covered |].
  intros props.
  apply keeps_bind; [apply same_this_trans | by apply keeps_reads, reads_read |].
  intros now.
  apply keeps_bind; [apply same_this_trans | |].
  - apply keeps_reads; [done|].
    destruct ratings; first [apply reads_ret | apply reads_throw | apply reads_covered].
  - intros r. by apply keeps_modify.
Qed.

Lemma keeps_update flag : keeps same_tally (update flag).
Proof.
  apply keeps_bind; [apply same_tally_trans | by apply keeps_reads, reads_read |].
  intros l.
  apply keeps_bind; [apply same_tally_trans | by apply keeps_reads, reads_read |].
  intros d.
  apply keeps_bind; [apply same_tally_trans | by apply keeps_modify |]. intros _.
  apply keeps_bind; [apply same_tally_trans | by apply keeps_reads, reads_covered |].
  intros t.
  apply keeps_bind; [apply same_tally_trans | by apply keeps_modify |]. intros _.
  apply keeps_bind; [apply same_tally_trans | by apply keeps_reads, reads_covered |].
  intros positive.
  apply keeps_bind; [apply same_tally_trans | |].
  { apply keeps_reads; [done|]. destruct positive; [|apply reads_ret].
    apply reads_bind; [apply reads_covered|]. intros v. apply reads_ret. }
  intros vm.
  apply keeps_bind; [apply same_tally_trans | by apply keeps_modify |]. intros _.
  destruct (truthy flag); [|by apply keeps_reads, reads_ret].
  intros w. pose proof (keeps_setCache (VObj (tally l d)) w) as H.
  destruct (setCache _ w); [| |done]; unfold same_this in H; unfold same_tally;
    by rewrite H.
Qed.

Lemma update_counts flag w w' l d :
  counts w l d -> after (update flag w) = Some w' -> counts w' l d.
Proof.
  intros [Hl Hd] Hafter. pose proof (keeps_update flag w) as H.
  destruct (update flag w) as [[] w1|e w1|]; [| |done];
    cbn in Hafter; injection Hafter as <-; destruct H as [Hl' Hd'];
    split; congruence.
Qed.

Lemma is_str_exclusive v : is_str v "success" = true -> is_str v "updated" = false.
Proof.
  destruct v; try done. cbn. intros H. apply String.eqb_eq in H. by subst.
Qed.

Lemma get_field_property response name w :
  get_field response name w =
    if nullish response then Throw TypeError w
    else Ok (property response name) w.
Proof. by destruct response. Qed.

Lemma verdict_of_reply v response :
  nullish response = false ->
  verdict_of v (Json response) =
    if match v with
       | Like => truthy (property response "error")
       | Dislike => false
       end
    then Rejected
    else if is_str (property response "status") "success" then Created
    else if is_str (property response "status") "updated" then Switched
    else Rejected.
Proof. by destruct response. Qed.

Lemma incr_likes_int w l :
  likes (this w) = int l ->
  incr_likes w = Ok tt (with_this (set_likes (int (l + 1))) w).
Proof. intros H. unfold incr_likes, bind, read, covered, modify. by rewrite H. Qed.

Lemma incr_dislikes_int w d :
  dislikes (this w) = int d ->
  incr_dislikes w = Ok tt (with_this (set_dislikes (int (d + 1))) w).
Proof. intros H. unfold incr_dislikes, bind, read, covered, modify. by rewrite H. Qed.

Lemma decr_likes_int w l :
  likes (this w) = int l ->
  decr_likes w = Ok tt (with_this (set_likes (int (l - 1))) w).
Proof. intros H. unfold decr_likes, bind, read, covered, modify. by rewrite H. Qed.

Lemma decr_dislikes_int w d :
  dislikes (this w) = int d ->
  decr_dislikes w = Ok tt (with_this (set_dislikes (int (d - 1))) w).
Proof. intros H. unfold decr_dislikes, bind, read, covered, modify. by rewrite H. Qed.

Lemma cast_shape v w l d :
  counts w l d ->
  exists w2,
    counts w2 (fst (voted v (next_verdict v w) l d)) (snd (voted v (next_verdict v w) l d))
    /\ storage w2 = storage w
    /\ ends_in (cast v w) w2.
Proof.
  intros Hc. unfold next_verdict.
  assert (Hc1 : forall r, counts (settled r w) l d) by (intros r; exact Hc).
  destruct v; cbn [cast].
  - unfold like. unfold bind at 1. unfold read. unfold bind at 1.
    rewrite request_unfold. fold (rate_request w "1"). cbn zeta.
    specialize (Hc1 (rate_request w "1")).
    set (w1 := settled (rate_request w "1") w) in *.
    destruct (settles (next_reply w)) as [| |response].
    + exists w1. split; [exact Hc1|]. split; [done|]. right; left. by eexists.
    + exists w1. split; [exact Hc1|]. split; [done|]. right; left. by eexists.
    + unfold bind at 1. rewrite get_field_property.
      destruct (nullish response) eqn:Hnull.
      { exists w1. destruct response; try done;
          (split; [exact Hc1|]; split; [done|]; right; left; by eexists). }
      rewrite (verdict_of_reply Like response Hnull).
      destruct (truthy (property response "error")).
      { exists w1. split; [exact Hc1|]. split; [done|]. by left. }
      unfold bind at 1. rewrite get_field_property, Hnull.
      destruct Hc1 as [Hl Hd].
      destruct (is_str (property response "status") "success") eqn:Hs.
      * cbn [when]. unfold bind at 1. rewrite (incr_likes_int w1 l Hl).
        unfold bind at 1. rewrite get_field_property, Hnull.
        rewrite (is_str_exclusive _ Hs). cbn [when]. unfold bind at 1. cbn [ret].
        eexists. split; [|split; [|right; right; reflexivity]]; [by split|done].
      * cbn [when]. unfold bind at 1. cbn [ret].
        unfold bind at 1. rewrite get_field_property, Hnull.
        destruct (is_str (property response "status") "updated").
        -- cbn [when]. unfold bind at 1. unfold bind at 1.
           rewrite (incr_likes_int w1 l Hl).
           rewrite (decr_dislikes_int _ d); [|exact Hd].
           eexists. split; [|split; [|right; right; reflexivity]]; [by split|done].
        -- cbn [when]. unfold bind at 1. cbn [ret].
           eexists. split; [|split; [|right; right; reflexivity]]; [by split|done].
  - unfold dislike. unfold bind at 1. unfold read. unfold bind at 1.
    rewrite request_unfold. fold (rate_request w "0"). cbn zeta.
    specialize (Hc1 (rate_request w "0")).
    set (w1 := settled (rate_request w "0") w) in *.
    destruct (settles (next_reply w)) as [| |response].
    + exists w1. split; [exact Hc1|]. split; [done|]. right; left. by eexists.
    + exists w1. split; [exact Hc1|]. split; [done|]. right; left. by eexists.
    + unfold bind at 1. rewrite get_field_property.
      destruct (nullish response) eqn:Hnull.
      { exists w1. destruct response; try done;
          (split; [exact Hc1|]; split; [done|]; right; left; by eexists). }
      rewrite (verdict_of_reply Dislike response Hnull).
      destruct Hc1 as [Hl Hd].
      destruct (is_str (property response "status") "success") eqn:Hs.
      * cbn [when]. unfold bind at 1. rewrite (incr_dislikes_int w1 d Hd).
        unfold bind at 1. rewrite get_field_property, Hnull.
        rewrite (is_str_exclusive _ Hs). cbn [when]. unfold bind at 1. cbn [ret].
        eexists. split; [|split; [|right; right; reflexivity]]; [by split|done].
      * cbn [when]. unfold bind at 1. cbn [ret].
        unfold bind at 1. rewrite get_field_property, Hnull.
        destruct (is_str (property response "status") "updated").
        -- cbn [when]. unfold bind at 1. unfold bind at 1.
           rewrite (incr_dislikes_int w1 d Hd).
           rewrite (decr_likes_int _ l); [|exact Hl].
           eexists. split; [|split; [|right; right; reflexivity]]; [by split|done].
        -- cbn [when]. unfold bind at 1. cbn [ret].
           eexists. split; [|split; [|right; right; reflexivity]]; [by split|done].
Qed.

(** What one call of a handler does to the counters. *)
Lemma cast_counts v w w' l d :
  counts w l d -> after (cast v w) = Some w' ->
  counts w' (fst (voted v (next_verdict v w) l d)) (snd (voted v (next_verdict v w) l d)).
Proof.
  intros Hc.
  destruct (cast_shape v w l d Hc) as (w2 & Hc2 & _ & [-> | [[e ->] | ->]]).
  - by intros [= <-].
  - by intros [= <-].
  - by apply update_counts.
Qed.

End Session.

Section SessionProperties.

Context {platform : Platform}.

Lemma truthy_not_nullish v : truthy v = true -> nullish v = false.
Proof. by destruct v. Qed.

(** [load] after [getRating] has returned a truthy rating: the counters are
    read from it, shown, and stored under the key of the page. *)
Lemma load_spec w rating w1 k m t v mx :
  getRating w = Ok rating w1 -> truthy rating = true ->
  page w1 k -> holds w1 m ->
  let l := property rating "likes" in
  let d := property rating "dislikes" in
  presentation l d = Some (t, v, mx) ->
  load w =
    Ok tt (setItem (JSON_stringify
                      (VObj (<[k := VObj (entry_at (clock w1) (tally l d))]> m)))
                   (with_this (shown l d t v mx) w1)).
Proof.
  intros Hr Ht Hk Hm l d Hp. unfold load.
  pose proof (truthy_not_nullish rating Ht) as Hnull.
  rewrite (bind_ok _ _ _ _ _ Hr).
  unfold bind at 1. rewrite get_field_property, Hnull. fold l.
  unfold bind at 1. unfold modify at 1.
  unfold bind at 1. rewrite get_field_property. cbn [nullish]. rewrite Hnull. fold d.
  unfold bind at 1. unfold modify at 1.
  set (w2 := with_this (set_dislikes d) (with_this (set_likes l) w1)).
  rewrite (update_spec w2 rating l d t v mx); [|done|done|done].
  rewrite Ht.
  rewrite (setCache_object _ k m).
  - reflexivity.
  - by apply (page_frame w1).
  - by apply (holds_frame w1).
Qed.




(** C1 (amended).  From counters that are not negative, the counters stay
    non-negative through any sequence of [like()] and [dislike()] calls,
    whatever the replies, provided no switched vote arrives while the
    opposite counter is below one: a switched vote takes exactly one from
    the opposite counter ([cast_counts]), and nothing floors the result.
    ([run_covered]: the sequence runs to its end in the embedding unless an
    array is stored in place of the table.) *)
Theorem guarded_votes_keep_counts_nonnegative (votes : list vote) (w w' : World) :
  nonneg w -> guarded votes w -> run votes w = Some w' -> nonneg w'.
Proof.
  revert w. induction votes as [|v votes IH]; intros w Hn Hg Hrun.
  - cbn in Hrun. by injection Hrun as <-.
  - cbn [run] in Hrun. cbn [guarded] in Hg. destruct Hg as [Hswitch Hg].
    destruct (after (cast v w)) as [w1|] eqn:Hafter; [|done].
    apply (IH w1); [|done|done].
    destruct Hn as (l & d & Hc & Hl & Hd).
    pose proof (cast_counts v w w1 l d Hc Hafter) as Hc1.
    eexists _, _. split; [exact Hc1|].
    destruct (next_verdict v w) eqn:Hv; destruct v; cbn; try lia.
    + destruct (Hswitch eq_refl) as (n & Hopp & Hn).
      destruct Hc as [_ Hcd]. cbn [opposite] in Hopp.
      rewrite Hcd in Hopp. injection Hopp as ->. lia.
    + destruct (Hswitch eq_refl) as (n & Hopp & Hn).
      destruct Hc as [Hcl _]. cbn [opposite] in Hopp.
      rewrite Hcl in Hopp. injection Hopp as ->. lia.
Qed.

(** What [update] shows for integer counters. *)
Lemma presentation_int (l d : Z) :
  presentation (int l) (int d) =
    Some (int (l + d),
          if 0 <? l + d then int (l / (l + d)) else int 1,
          if 0 <? l + d then int (l + d) else int 2).
Proof.
  unfold presentation. cbn [JS.add to_number num_add int].
  change (VNum (Int (l + d))) with (int (l + d)).
  unfold JS.lt. cbn [to_number int].
  destruct (0 <? l + d) eqn:Hpos; [|done].
  unfold JS.floor_div. cbn [to_number int].
  apply Z.ltb_lt in Hpos.
  assert ((l + d =? 0) = false) as -> by (apply Z.eqb_neq; lia). done.
Qed.

(** With a dislike among the votes, the value of the progress bar is 0,
    however many likes there are. *)
Lemma presentation_floor (l d : Z) :
  0 <= l -> 0 < d -> presentation (int l) (int d) = Some (int (l + d), int 0, int (l + d)).
Proof.
  intros Hl Hd. rewrite presentation_int.
  assert ((0 <? l + d) = true) as -> by (apply Z.ltb_lt; lia).
  by rewrite Z.div_small by lia.
Qed.

(** A vote whose request fails changes nothing but the log of requests. *)
Lemma failed_vote_changes_nothing (v : vote) (w : World) :
  settles (next_reply w) = NetFail \/ settles (next_reply w) = BadBody ->
  exists e w', cast v w = Throw e w'
               /\ this w' = this w /\ storage w' = storage w /\ puts w' = puts w.
Proof.
  intros Hfail. destruct v; cbn [cast].
  - unfold like. unfold bind at 1. unfold read. unfold bind at 1.
    rewrite request_unfold. cbn zeta.
    destruct Hfail as [-> | ->]; by eexists _, _.
  - unfold dislike. unfold bind at 1. unfold read. unfold bind at 1.
    rewrite request_unfold. cbn zeta.
    destruct Hfail as [-> | ->]; by eexists _, _.
Qed.

(** [like] stops at a reply that carries a truthy [error]. *)
Lemma like_returns_on_error_flag (w : World) (response : value) :
  settles (next_reply w) = Json response ->
  truthy (property response "error") = true ->
  like w = Ok tt (settled (rate_request w "1") w).
Proof.
  intros Hr He. unfold like. unfold bind at 1. unfold read. unfold bind at 1.
  rewrite request_unfold, Hr. cbn zeta.
  unfold bind at 1. rewrite get_field_property.
  destruct response; try done. cbn [nullish]. by rewrite He.
Qed.

(** [dislike] does not look at [error]: a reply without a [status] takes it
    to [update(true)], which stores the unchanged counters. *)
Lemma dislike_updates_on_error_flag (w : World) (r : gmap string value) k m l d :
  settles (next_reply w) = Json (VObj r) -> r !! "status" = None ->
  counts w l d -> page w k -> holds w m ->
  exists w', dislike w = Ok tt w' /\ counts w' l d /\ puts w' = S (puts w).
Proof.
  intros Hr Hs [Hl Hd] Hk Hm.
  unfold dislike. unfold bind at 1. unfold read. unfold bind at 1.
  rewrite request_unfold, Hr. cbn zeta.
  set (w1 := settled _ w).
  assert (Hstatus : property (VObj r) "status" = VUndef)
    by (cbn [property]; by rewrite Hs).
  unfold bind at 1. rewrite get_field_property, Hstatus. cbn [nullish is_str when].
  unfold bind at 1. cbn [ret].
  unfold bind at 1. rewrite get_field_property, Hstatus. cbn [nullish is_str when].
  unfold bind at 1. cbn [ret].
  destruct (presentation (int l) (int d)) as [[[t v] mx]|] eqn:Hp;
    [|by rewrite presentation_int in Hp].
  rewrite (update_spec w1 (VBool true) (int l) (int d) t v mx Hl Hd Hp).
  cbn [truthy]. rewrite (setCache_object _ k m).
  - eexists. split; [reflexivity|]. by split.
  - by apply (page_frame w).
  - by apply (holds_frame w).
Qed.

Lemma setCache_covered r w :
  no_array w -> writes_objects ->
  exists w', after (setCache (VObj r) w) = Some w' /\ no_array w' /\ this w' = this w.
Proof.
  intros Hw Hplat. unfold setCache.
  unfold bind at 1. rewrite getURL_unfold.
  destruct (URL_new (href w)) as [u|]; [|by exists w].
  unfold bind at 1. rewrite getAllCache_unfold.
  assert (Hobj : forall m,
    exists w', after ((props <- covered (spread (VObj r));;
                       now <- read clock;;
                       ratings <- set_key (VObj m) (clean_url (hostname u +:+ pathname u))
                                    (VObj (<["expires" := int (now + TTL)]> props));;
                       modify (setItem (JSON_stringify ratings)))%js w) = Some w'
               /\ no_array w' /\ this w' = this w).
  { intros m. eexists. split; [reflexivity|]. split; [|done].
    intros s a [= <-]. apply Hplat. }
  destruct (storage w) as [s|] eqn:Hs; [|apply Hobj].
  destruct (String.eqb s ""); [apply Hobj|].
  destruct (JSON_parse s) as [v|] eqn:Hv; [|by exists w].
  destruct (truthy v) eqn:Ht; [|apply Hobj].
  destruct v; try done; try (by exists w).
  by destruct (Hw s l).
Qed.

Lemma no_array_frame w w' : storage w' = storage w -> no_array w -> no_array w'.
Proof. unfold no_array. by intros ->. Qed.

Lemma update_covered flag w l d :
  counts w l d -> no_array w -> writes_objects ->
  exists w', after (update flag w) = Some w' /\ no_array w'.
Proof.
  intros [Hl Hd] Hw Hplat.
  rewrite (update_spec w flag (int l) (int d) _ _ _ Hl Hd (presentation_int l d)).
  destruct (truthy flag).
  - destruct (setCache_covered (tally (int l) (int d))
                (with_this (shown (int l) (int d) (int (l + d))
                              (if 0 <? l + d then int (l / (l + d)) else int 1)
                              (if 0 <? l + d then int (l + d) else int 2)) w))
      as (w' & Hafter & Hno & _); [by apply (no_array_frame w) | done |].
    by exists w'.
  - eexists. split; [reflexivity|]. by apply (no_array_frame w).
Qed.

Lemma cast_covered v w l d :
  counts w l d -> no_array w -> writes_objects ->
  exists w', after (cast v w) = Some w' /\ no_array w'.
Proof.
  intros Hc Hw Hplat.
  destruct (cast_shape v w l d Hc) as (w2 & Hc2 & Hs2 & [-> | [[e ->] | ->]]).
  - exists w2. split; [done|]. by apply (no_array_frame w).
  - exists w2. split; [done|]. by apply (no_array_frame w).
  - eapply update_covered; [exact Hc2 | by apply (no_array_frame w) | done].
Qed.

(** The embedding covers every sequence of votes on integer counters, as
    long as the stored item is not an array. *)
Lemma run_covered votes w l d :
  counts w l d -> no_array w -> writes_objects ->
  exists w', run votes w = Some w'.
Proof.
  revert w l d. induction votes as [|v votes IH]; intros w l d Hc Hw Hplat.
  - by exists w.
  - cbn [run]. destruct (cast_covered v w l d Hc Hw Hplat) as (w1 & Hafter & Hw1).
    rewrite Hafter. eapply IH; [|done|done].
    exact (cast_counts v w w1 l d Hc Hafter).
Qed.

End SessionProperties.

(** ** The cache key: [getURL] *)

Section Key.

Context {platform : Platform}.

Lemma clean_url_plain (r : string) :
  Str.occurs "www." r = false ->
  clean_url r = Str.strip_trailing_slash r
  /\ clean_url ("www." +:+ r) = Str.strip_trailing_slash r.
Proof.
  intros Hr. unfold clean_url. cbn zeta. rewrite StrFacts.strip_www.
  split; [|apply (StrFacts.replace_first_prefix "www." "")].
  apply StrFacts.replace_first_absent. by apply StrFacts.occurs_strip.
Qed.

(** C6 (amended).  [getURL] returns the host name and the path of the page
    (no scheme, port, query or fragment), without one trailing slash and
    without the first occurrence of ["www."], wherever it stands; the result
    depends on the URL of the page only.  The transform is idempotent on a
    host and path that do not end in two slashes and hold ["www."] at most
    as their prefix.  The host and path of [https://www.example.com/path/]
    and of [http://example.com/path] have the same image. *)
Theorem getURL_normalization (w : World) (u : URL) :
  URL_new (href w) = Some u ->
  let r := hostname u +:+ pathname u in
  getURL w = Ok (Str.replace_first "www." "" (Str.strip_trailing_slash r)) w
  /\ (forall w2, href w2 = href w -> getURL w2 = Ok (clean_url r) w2)
  /\ (forall r0,
      r = r0 \/ r = "www." +:+ r0 ->
      Str.occurs "www." r0 = false -> Str.ends_with_slashes r0 = false ->
      clean_url r = Str.strip_trailing_slash r0
      /\ clean_url (clean_url r) = clean_url r)
  /\ clean_url ("www.example.com" +:+ "/path/") = clean_url ("example.com" +:+ "/path").
Proof.
  intros Hu r. split; [|split; [|split]].
  - rewrite getURL_unfold, Hu. reflexivity.
  - intros w2 Hh. by rewrite getURL_unfold, Hh, Hu.
  - intros r0 Hr Hwww Hslashes.
    destruct (clean_url_plain r0 Hwww) as [Hplain Hprefixed].
    assert (Himage : clean_url r = Str.strip_trailing_slash r0)
      by (destruct Hr as [-> | ->]; done).
    split; [done|]. rewrite Himage.
    destruct (clean_url_plain (Str.strip_trailing_slash r0)) as [-> _].
    + by apply StrFacts.occurs_strip.
    + by apply StrFacts.strip_twice.
  - reflexivity.
Qed.

End Key.

(** ** The methods on concrete worlds *)

Section Concrete.

#[local] Existing Instance Reference_platform.
Import Scenario.

(** The key of the page of the examples. *)
Lemma location_key item now replies b : page (world item now location replies b) key.
Proof. vm_compute. reflexivity. Qed.

(** C1, counterexample.  From the counters 0 and 0, one [like()] answered
    [status: "updated"] leaves [dislikes] at -1. *)
Lemma switched_like_drives_dislikes_negative :
  let w := ready 0 0 [switched] in
  nonneg w
  /\ exists w', run [Like] w = Some w' /\ counts w' 1 (-1) /\ ~ nonneg w'.
Proof.
  split.
  - exists 0, 0. split; [by split | lia].
  - eexists. split; [vm_compute; reflexivity|].
    split; [by split|].
    intros (l & d & [_ Hd] & _ & Hneg). cbn in Hd. injection Hd as <-. lia.
Qed.

(** C1, an instance: from [{5,3}], a like recorded and then a dislike that
    switches it give [{5,4}]. *)
Lemma guarded_votes_keep_counts_nonnegative_witness :
  exists w', run [Like; Dislike] (ready 5 3 [created; switched]) = Some w'
             /\ counts w' 5 4 /\ nonneg w'.
Proof.
  eexists. split; [vm_compute; reflexivity|]. split; [by split|].
  apply (guarded_votes_keep_counts_nonnegative
           [Like; Dislike] (ready 5 3 [created; switched])).
  - exists 5, 3. split; [by split | lia].
  - vm_compute. split; [intros H; discriminate H|].
    split; [|exact I]. intros _. exists 6.
    split; [reflexivity|]. intros H; discriminate H.
  - vm_compute. reflexivity.
Defined.

(** C2, the failing input.  With the counters 5 and 4 and nothing stored, a
    reply flagged [error: true] makes [like()] return at once, while
    [dislike()] goes on to [update(true)]: the counters are unchanged, but
    [setItem] is called and an entry appears in the cache. *)
Theorem dislike_writes_cache_on_error_flag :
  let w := ready 5 4 [error_flagged] in
  storage w = None
  /\ like w = Ok tt (settled (rate_request w "1") w)
  /\ exists w', dislike w = Ok tt w'
                /\ counts w' 5 4
                /\ puts w' = S (puts w)
                /\ storage w' = Some (Reference.stringify (VObj (table key 5 4 3601000))).
Proof.
  split; [reflexivity|]. split; [vm_compute; reflexivity|].
  eexists. split; [vm_compute; reflexivity|].
  split; [by split|]. split; vm_compute; reflexivity.
Qed.

(** C3, counterexample.  The stored text is an opening brace: [getAllCache]
    throws the [SyntaxError] of [JSON.parse]. *)
Lemma getAllCache_throws_on_corrupt_storage :
  storage corrupt = Some "{" /\ getAllCache corrupt = Throw SyntaxError corrupt.
Proof. split; [reflexivity|]. vm_compute. reflexivity. Qed.

(** C4, the failing input.  With 5 likes and 3 dislikes [update] sets the
    progress bar to 0 out of 8, not to 5 out of 8: the value is the floor of
    [likes / total]. *)
Theorem update_floors_the_ratio :
  let w := ready 5 3 [] in
  exists w', update (VBool false) w = Ok tt w'
             /\ likes (this w') = int 5
             /\ total (this w') = int 8
             /\ progress_value (this w') = int 0
             /\ progress_max (this w') = int 8.
Proof.
  eexists. split; [vm_compute; reflexivity|].
  split; [reflexivity|]. split; [reflexivity|]. split; reflexivity.
Qed.

(** C5, counterexample.  The entry expires at 1000 and the clock shows
    1000: [getCached] returns the entry. *)
Lemma getCached_serves_entry_at_expiry_instant :
  let w := cached 1000 1000 [] in
  let e := <["expires" := int 1000]> (tally (int 5) (int 3)) in
  clock w = 1000
  /\ holds w (<[key := VObj e]> ∅)
  /\ getCached w = Ok (VObj (served key e)) w
  /\ getCached w <> Ok (VBool false) w.
Proof.
  split; [reflexivity|]. split; [vm_compute; reflexivity|].
  split; [vm_compute; reflexivity|].
  vm_compute. intros H. discriminate H.
Qed.

(** C5, instances: an entry that expires at 5000 is served at 1000 and
    absent at 6000. *)
Lemma getCached_expiry_witness :
  let e := <["expires" := int 5000]> (tally (int 5) (int 3)) in
  getCached (cached 5000 1000 []) = Ok (VObj (served key e)) (cached 5000 1000 [])
  /\ getCached (cached 5000 6000 []) = Ok (VBool false) (cached 5000 6000 []).
Proof.
  split.
  - apply (getCached_expiry (cached 5000 1000 []) key (table key 5 3 5000) _ 5000);
      [apply location_key | vm_compute; reflexivity | vm_compute; reflexivity
      | vm_compute; reflexivity | vm_compute; intros H; discriminate H].
  - apply (getCached_expiry (cached 5000 6000 []) key (table key 5 3 5000)
             (<["expires" := int 5000]> (tally (int 5) (int 3))) 5000);
      [apply location_key | vm_compute; reflexivity | vm_compute; reflexivity
      | vm_compute; reflexivity | vm_compute; reflexivity].
Defined.

(** C6, counterexample.  For the page [http://example.com//] the transform
    is not idempotent; and it removes a ["www."] that is not at the start. *)
Lemma clean_url_not_idempotent :
  URL_new "http://example.com//" = Some (mkURL "example.com" "//")
  /\ clean_url ("example.com" +:+ "//") = "example.com/"
  /\ clean_url (clean_url ("example.com" +:+ "//")) = "example.com"
  /\ clean_url (clean_url ("example.com" +:+ "//")) <> clean_url ("example.com" +:+ "//")
  /\ clean_url ("example.com" +:+ "/www.html") = "example.com/html".
Proof.
  split; [vm_compute; reflexivity|]. split; [vm_compute; reflexivity|].
  split; [vm_compute; reflexivity|]. split; [|vm_compute; reflexivity].
  vm_compute. intros H. discriminate H.
Qed.

(** C6, instances: the two pages of the example have the same key, and the
    transform is idempotent on the host and path of the first. *)
Lemma getURL_normalization_witness :
  let secure := world None 1000 "https://www.example.com/path/" [] (bar VUndef VUndef) in
  let plain := world None 1000 "http://example.com/path" [] (bar VUndef VUndef) in
  getURL secure = Ok key secure
  /\ getURL plain = Ok key plain
  /\ clean_url (clean_url ("www.example.com" +:+ "/path/"))
     = clean_url ("www.example.com" +:+ "/path/").
Proof.
  intros secure plain.
  pose proof (getURL_normalization secure (mkURL "www.example.com" "/path/")) as Hs.
  pose proof (getURL_normalization plain (mkURL "example.com" "/path")) as Hp.
  cbn zeta in Hs, Hp.
  specialize (Hs ltac:(vm_compute; reflexivity)).
  specialize (Hp ltac:(vm_compute; reflexivity)).
  destruct Hs as (Hs1 & _ & Hs3 & _). destruct Hp as (Hp1 & _).
  split; [rewrite Hs1; vm_compute; reflexivity|].
  split; [rewrite Hp1; vm_compute; reflexivity|].
  apply (Hs3 "example.com/path/"); [by right | vm_compute; reflexivity..].
Defined.







End Concrete.

(** ** The session beyond one call *)

(** ** Frames: what the methods leave alone *)

Section Frames.

Context {platform : Platform}.

Lemma same_env_refl w : same_env w w.
Proof. by repeat split. Qed.

Lemma same_env_trans x y z : same_env x y -> same_env y z -> same_env x z.
Proof.
  unfold same_env. intros (?&?&?&?&?) (?&?&?&?&?). repeat split; congruence.
Qed.

(** [setCache] returns after one [setItem], or throws before it. *)
Lemma setCache_outcome rating w :
  match setCache rating w with
  | Ok _ w' => exists s, w' = setItem s w
  | Throw _ w' => w' = w
  | Beyond => True
  end.
Proof.
  unfold setCache. unfold bind at 1. rewrite getURL_unfold.
  destruct (URL_new (href w)) as [u|]; [|done].
  unfold bind at 1. rewrite getAllCache_unfold.
  assert (Hrest : forall ratings,
    match (props <- covered (spread rating);;
           now <- read clock;;
           ratings <- set_key ratings (clean_url (hostname u +:+ pathname u))
                        (VObj (<["expires" := int (now + TTL)]> props));;
           modify (setItem (JSON_stringify ratings)))%js w with
    | Ok _ w' => exists s, w' = setItem s w
    | Throw _ w' => w' = w
    | Beyond => True
    end).
  { intros ratings. unfold bind, covered, read, modify.
    destruct (spread rating); [|done]. destruct ratings; cbn; eauto. }
  destruct (storage w) as [s|]; [|apply Hrest].
  destruct (String.eqb s ""); [apply Hrest|].
  destruct (JSON_parse s); [apply Hrest|done].
Qed.

Lemma update_beyond flag w :
  presentation (likes (this w)) (dislikes (this w)) = None -> update flag w = Beyond.
Proof.
  unfold presentation, update. unfold bind, read, modify, covered.
  cbn -[JS.add JS.lt JS.floor_div].
  destruct (JS.add _ _) as [t|]; [|done].
  destruct (JS.lt (int 0) t) as [[]|]; [|done|done].
  by destruct (JS.floor_div _ t).
Qed.

(** [update] shows the counters, and then either stops or goes through one
    [setCache]. *)
Lemma update_outcome flag w :
  match update flag w with
  | Ok _ w' | Throw _ w' =>
      exists t v mx,
        presentation (likes (this w)) (dislikes (this w)) = Some (t, v, mx)
        /\ let w1 := with_this (shown (likes (this w)) (dislikes (this w)) t v mx) w in
           w' = w1 \/ (truthy flag = true /\ exists s, w' = setItem s w1)
  | Beyond => True
  end.
Proof.
  destruct (presentation (likes (this w)) (dislikes (this w))) as [[[t v] mx]|] eqn:Hp;
    [|by rewrite update_beyond].
  rewrite (update_spec w flag _ _ t v mx eq_refl eq_refl Hp).
  destruct (truthy flag).
  - set (w1 := with_this _ w).
    pose proof (setCache_outcome (VObj (tally (likes (this w)) (dislikes (this w)))) w1) as H.
    destruct (setCache _ w1) as [[] w'|e w'|]; [| |done].
    + exists t, v, mx. split; [done|]. right. by split.
    + exists t, v, mx. split; [done|]. left. done.
  - exists t, v, mx. split; [done|]. by left.
Qed.

Lemma keeps_env_update flag : keeps same_env (update flag).
Proof.
  intros w. pose proof (update_outcome flag w) as H.
  destruct (update flag w) as [[] w'|e w'|]; [| |done];
    destruct H as (t & v & mx & _ & [-> | (_ & s & ->)]); by repeat split.
Qed.


Lemma keeps_env_ret {A} (a : A) : keeps same_env (ret a).
Proof. intros w. apply same_env_refl. Qed.

Lemma keeps_env_get_field o name : keeps same_env (get_field o name).
Proof. apply keeps_reads; [apply same_env_refl | apply reads_get_field]. Qed.

Lemma keeps_env_set (c : M value) (f : value -> Bar -> Bar) :
  reads c -> (forall x b, apiRoot (f x b) = apiRoot b) ->
  keeps same_env (bind c (fun x => modify (with_this (f x)))).
Proof.
  intros Hc Hf. apply keeps_bind; [apply same_env_trans | |].
  - apply keeps_reads; [apply same_env_refl | exact Hc].
  - intros x. apply keeps_modify. intros w. repeat split. apply Hf.
Qed.

Lemma keeps_env_step (g : Bar -> value) (h : value -> option value)
  (f : value -> Bar -> Bar) :
  (forall x b, apiRoot (f x b) = apiRoot b) ->
  keeps same_env (bind (read (fun w => g (this w)))
                    (fun l => bind (covered (h l)) (fun l => modify (with_this (f l))))).
Proof.
  intros Hf. apply keeps_bind; [apply same_env_trans | |].
  - apply keeps_reads; [apply same_env_refl | apply reads_read].
  - intros l. apply keeps_env_set; [apply reads_covered | exact Hf].
Qed.

Lemma keeps_env_incr_likes : keeps same_env incr_likes.
Proof. by apply (keeps_env_step likes (fun l => JS.add l (int 1)) set_likes). Qed.

Lemma keeps_env_incr_dislikes : keeps same_env incr_dislikes.
Proof. by apply (keeps_env_step dislikes (fun l => JS.add l (int 1)) set_dislikes). Qed.

Lemma keeps_env_decr_likes : keeps same_env decr_likes.
Proof. by apply (keeps_env_step likes (fun l => JS.sub l (int 1)) set_likes). Qed.

Lemma keeps_env_decr_dislikes : keeps same_env decr_dislikes.
Proof. by apply (keeps_env_step dislikes (fun l => JS.sub l (int 1)) set_dislikes). Qed.

Lemma keeps_env_when b c : keeps same_env c -> keeps same_env (when b c).
Proof. destruct b; [done|]. intros _. apply keeps_env_ret. Qed.

Lemma keeps_env_seq {A B} (c : M A) (k : A -> M B) :
  keeps same_env c -> (forall a, keeps same_env (k a)) -> keeps same_env (bind c k).
Proof. apply keeps_bind, same_env_trans. Qed.

(** A handler is its request followed by [on_reply]. *)
Lemma cast_unfold v w :
  cast v w =
    let w1 := settled (rate_request w (flag_of v)) w in
    match settles (next_reply w) with
    | NetFail => Throw NetworkError w1
    | BadBody => Throw SyntaxError w1
    | Json response => on_reply v response w1
    end.
Proof.
  destruct v; cbn [cast flag_of on_reply].
  - unfold like. unfold bind at 1. unfold read. unfold bind at 1.
    rewrite request_unfold. fold (rate_request w "1"). cbn zeta.
    by destruct (settles (next_reply w)).
  - unfold dislike. unfold bind at 1. unfold read. unfold bind at 1.
    rewrite request_unfold. fold (rate_request w "0"). cbn zeta.
    by destruct (settles (next_reply w)).
Qed.

Lemma keeps_env_handler (incr decr : M unit) (response : value) :
  keeps same_env incr -> keeps same_env decr ->
  keeps same_env
    (bind (get_field response "status") (fun status =>
     bind (when (is_str status "success") incr) (fun _ =>
     bind (get_field response "status") (fun status =>
     bind (when (is_str status "updated") (bind incr (fun _ => decr))) (fun _ =>
     update (VBool true)))))).
Proof.
  intros Hi Hd.
  apply keeps_env_seq; [apply keeps_env_get_field|]. intros status.
  apply keeps_env_seq; [by apply keeps_env_when|]. intros _.
  apply keeps_env_seq; [apply keeps_env_get_field|]. intros status'.
  apply keeps_env_seq; [|intros _; apply keeps_env_update].
  apply keeps_env_when. by apply keeps_env_seq.
Qed.

Lemma keeps_env_on_reply v response : keeps same_env (on_reply v response).
Proof.
  destruct v; cbn [on_reply].
  - apply keeps_env_seq; [apply keeps_env_get_field|]. intros error.
    destruct (truthy error); [apply keeps_env_ret|].
    apply keeps_env_handler; [apply keeps_env_incr_likes | apply keeps_env_decr_dislikes].
  - apply keeps_env_handler; [apply keeps_env_incr_dislikes | apply keeps_env_decr_likes].
Qed.

(** An accepted vote on integer counters: the counters move, then
    [update(true)] runs. *)
Lemma on_reply_accepted v response w l d :
  counts w l d -> accepted (verdict_of v (Json response)) = true ->
  exists f,
    on_reply v response w = update (VBool true) (with_this f w)
    /\ counts (with_this f w)
         (fst (voted v (verdict_of v (Json response)) l d))
         (snd (voted v (verdict_of v (Json response)) l d)).
Proof.
  intros [Hl Hd] Hacc.
  destruct (nullish response) eqn:Hnull; [by destruct response|].
  rewrite (verdict_of_reply v response Hnull) in *.
  destruct v; cbn [on_reply].
  - unfold bind at 1. rewrite get_field_property, Hnull.
    destruct (truthy (property response "error")); [done|].
    unfold bind at 1. rewrite get_field_property, Hnull.
    destruct (is_str (property response "status") "success") eqn:Hs.
    + cbn [when]. unfold bind at 1. rewrite (incr_likes_int w l Hl).
      unfold bind at 1. rewrite get_field_property, Hnull.
      rewrite (is_str_exclusive _ Hs). cbn [when]. unfold bind at 1. cbn [ret].
      eexists. split; [reflexivity|]. by split.
    + cbn [when]. unfold bind at 1. cbn [ret].
      unfold bind at 1. rewrite get_field_property, Hnull.
      destruct (is_str (property response "status") "updated"); [|done].
      cbn [when]. unfold bind at 1. unfold bind at 1.
      rewrite (incr_likes_int w l Hl).
      rewrite (decr_dislikes_int _ d); [|exact Hd].
      exists (fun b => set_dislikes (int (d - 1)) (set_likes (int (l + 1)) b)).
      split; [reflexivity|]. by split.
  - unfold bind at 1. rewrite get_field_property, Hnull.
    destruct (is_str (property response "status") "success") eqn:Hs.
    + cbn [when]. unfold bind at 1. rewrite (incr_dislikes_int w d Hd).
      unfold bind at 1. rewrite get_field_property, Hnull.
      rewrite (is_str_exclusive _ Hs). cbn [when]. unfold bind at 1. cbn [ret].
      eexists. split; [reflexivity|]. by split.
    + cbn [when]. unfold bind at 1. cbn [ret].
      unfold bind at 1. rewrite get_field_property, Hnull.
      destruct (is_str (property response "status") "updated"); [|done].
      cbn [when]. unfold bind at 1. unfold bind at 1.
      rewrite (incr_dislikes_int w d Hd).
      rewrite (decr_likes_int _ l); [|exact Hl].
      exists (fun b => set_likes (int (l - 1)) (set_dislikes (int (d + 1)) b)).
      split; [reflexivity|]. by split.
Qed.

(** The same for a call of the handler. *)
Lemma cast_accepted v w l d :
  counts w l d -> accepted (next_verdict v w) = true ->
  let w1 := settled (rate_request w (flag_of v)) w in
  exists f,
    cast v w = update (VBool true) (with_this f w1)
    /\ counts (with_this f w1)
         (fst (voted v (next_verdict v w) l d)) (snd (voted v (next_verdict v w) l d)).
Proof.
  intros Hc Hacc w1. rewrite cast_unfold. cbn zeta. fold w1.
  unfold next_verdict in *.
  destruct (settles (next_reply w)) as [| |response]; [done|done|].
  by apply on_reply_accepted.
Qed.

End Frames.

Section VoteRequests.

Context {platform : Platform}.

(** X1.  Every call of [like()] or [dislike()] that the embedding covers
    sends exactly one request, whatever the reply and whether the call
    returns or throws: a GET to [apiRoot + "rate"] carrying the address of
    the page as [url] and 1 or 0 as [rating].  The clock has moved by the
    delay of the reply and by nothing else. *)
Theorem vote_sends_one_request (v : vote) (w w' : World) :
  after (cast v w) = Some w' ->
  sent w' = sent w ++ [mkRequest (apiRoot (this w) +:+ "rate") "GET"
                         [("url", href w); ("rating", flag_of v)]]
  /\ clock w' = clock w + delay (next_reply w)
  /\ href w' = href w
  /\ apiRoot (this w') = apiRoot (this w).
Proof.
  rewrite cast_unfold. cbn zeta. fold (rate_request w (flag_of v)).
  set (w1 := settled (rate_request w (flag_of v)) w).
  destruct (settles (next_reply w)) as [| |response].
  - by intros [= <-].
  - by intros [= <-].
  - pose proof (keeps_env_on_reply v response w1) as Hkeeps.
    destruct (on_reply v response w1) as [[] w2|e w2|]; [| |done];
      intros [= <-]; destruct Hkeeps as (Hs & Hc & Hh & _ & Hr);
      rewrite Hs, Hc, Hh, Hr; done.
Qed.

End VoteRequests.

Section VoteOutcomes.

Context {platform : Platform}.

Lemma getAllCache_unparsable w : unparsable w -> getAllCache w = Throw SyntaxError w.
Proof.
  intros (s & Hs & Hne & Hp). rewrite getAllCache_unfold, Hs.
  apply String.eqb_neq in Hne. by rewrite Hne, Hp.
Qed.

Lemma unparsable_frame w w' : storage w' = storage w -> unparsable w -> unparsable w'.
Proof. unfold unparsable. by intros ->. Qed.

Lemma setCache_unparsable rating w k :
  page w k -> unparsable w -> setCache rating w = Throw SyntaxError w.
Proof.
  intros Hk Hu. unfold setCache. rewrite (bind_ok _ _ _ _ _ Hk).
  unfold bind at 1. by rewrite (getAllCache_unparsable w Hu).
Qed.


(** X2.  One call of a handler on integer counters moves them by exactly
    what the reply says: one more of the chosen kind for [status:
    "success"], also one less of the other kind for [status: "updated"],
    and nothing for any other reply or a failed request.  When the counters
    move, the two count labels and the total show the new values, whether
    the cache write that follows succeeds or throws. *)
Theorem vote_changes_counters (v : vote) (w w' : World) (l d : Z) :
  counts w l d -> after (cast v w) = Some w' ->
  let l' := fst (voted v (next_verdict v w) l d) in
  let d' := snd (voted v (next_verdict v w) l d) in
  counts w' l' d'
  /\ (accepted (next_verdict v w) = true ->
      likeCount (this w') = int l' /\ dislikeCount (this w') = int d'
      /\ total (this w') = int (l' + d')).
Proof.
  intros Hc Hafter l' d'. split; [exact (cast_counts v w w' l d Hc Hafter)|].
  intros Hacc.
  destruct (cast_accepted v w l d Hc Hacc) as (f & Heq & [Hl2 Hd2]).
  fold l' d' in Hl2, Hd2. rewrite Heq in Hafter.
  set (w2 := with_this f _) in *.
  pose proof (update_outcome (VBool true) w2) as H.
  rewrite Hl2, Hd2, presentation_int in H.
  destruct (update (VBool true) w2) as [[] w3|e w3|]; [| |done];
    injection Hafter as <-;
    destruct H as (t & vv & mx & [= <- <- <-] & [-> | (_ & s & ->)]); done.
Qed.

(** X3.  A vote that gets no usable reply (the request fails, the body is
    not JSON, or it is [null]) makes the handler throw, and a reply with a
    truthy [error] makes [like()] return at once: in both cases the fields
    of [this] and the stored item are those before the call, and
    [setItem] has not been called; only the request has been sent. *)
Theorem unanswered_vote_changes_nothing (v : vote) (w : World) :
  next_verdict v w = Failure
  \/ (v = Like /\ exists response, settles (next_reply w) = Json response
                  /\ truthy (property response "error") = true) ->
  let w1 := settled (rate_request w (flag_of v)) w in
  after (cast v w) = Some w1
  /\ this w1 = this w /\ storage w1 = storage w /\ puts w1 = puts w
  /\ (next_verdict v w = Failure -> exists e, cast v w = Throw e w1)
  /\ (next_verdict v w <> Failure -> cast v w = Ok tt w1).
Proof.
  intros H w1.
  assert (Hcast : (next_verdict v w = Failure /\ exists e, cast v w = Throw e w1)
                  \/ (next_verdict v w <> Failure /\ cast v w = Ok tt w1)).
  { rewrite cast_unfold. cbn zeta. fold w1. unfold next_verdict in *.
    destruct H as [Hfail | (-> & response & Hr & He)].
    - left. split; [done|].
      destruct (settles (next_reply w)) as [| |response]; [by eexists..|].
      destruct (nullish response) eqn:Hnull.
      + destruct response; try done; destruct v; by eexists.
      + rewrite (verdict_of_reply v response Hnull) in Hfail.
        repeat match type of Hfail with
               | (if ?b then _ else _) = _ => destruct b
               end; discriminate Hfail.
    - right. rewrite Hr.
      assert (Hnull : nullish response = false) by (by destruct response).
      rewrite (verdict_of_reply Like response Hnull), He. split; [done|].
      cbn [on_reply]. unfold bind at 1. by rewrite get_field_property, Hnull, He. }
  split; [|split; [done|split; [done|split; [done|]]]].
  - by destruct Hcast as [(_ & e & ->) | (_ & ->)].
  - split.
    + intros Hf. by destruct Hcast as [(_ & He) | (Hn & _)].
    + intros Hn. by destruct Hcast as [(Hf & _) | (_ & Hok)].
Qed.



(** X9.  With a stored item that is not JSON, an accepted vote is sent,
    counted and shown, and then the handler throws the [SyntaxError] of
    [JSON.parse] from the cache write: the counters of [this] and the
    labels hold the new values while the stored item stays as it was. *)
Theorem vote_on_unparsable_store
  (v : vote) (w : World) (k : string) (l d : Z) :
  counts w l d -> page w k -> unparsable w -> accepted (next_verdict v w) = true ->
  let l' := fst (voted v (next_verdict v w) l d) in
  let d' := snd (voted v (next_verdict v w) l d) in
  exists w',
    cast v w = Throw SyntaxError w'
    /\ counts w' l' d'
    /\ likeCount (this w') = int l' /\ dislikeCount (this w') = int d'
    /\ storage w' = storage w /\ puts w' = puts w
    /\ sent w' = sent w ++ [rate_request w (flag_of v)].
Proof.
  intros Hc Hk Hu Hacc l' d'.
  destruct (cast_accepted v w l d Hc Hacc) as (f & Heq & [Hl2 Hd2]).
  fold l' d' in Hl2, Hd2. rewrite Heq.
  set (w2 := with_this f _) in *.
  rewrite (update_spec w2 (VBool true) (int l') (int d') _ _ _ Hl2 Hd2
             (presentation_int l' d')).
  cbn [truthy]. set (w3 := with_this _ w2).
  rewrite (setCache_unparsable _ w3 k);
    [|by apply (page_frame w) | by apply (unparsable_frame w)].
  eexists. split; [reflexivity|]. split; [by split|]. done.
Qed.

End VoteOutcomes.

Section Display.

Context {platform : Platform}.

(** X10.  For counters that are not negative, [update] shows the counters
    in the two labels and their sum as the total; the progress bar gets
    1 of 2 when there is no vote, and otherwise its maximum is the total
    and its value is 1 when there is no dislike and 0 as soon as there is
    one: the floor of [likes / total]. *)
Theorem update_shows_all_or_nothing (flag : value) (w w' : World) (l d : Z) :
  counts w l d -> 0 <= l -> 0 <= d -> after (update flag w) = Some w' ->
  likeCount (this w') = int l /\ dislikeCount (this w') = int d
  /\ total (this w') = int (l + d)
  /\ (l + d = 0 ->
      progress_value (this w') = int 1 /\ progress_max (this w') = int 2)
  /\ (0 < l + d ->
      progress_value (this w') = int (if d =? 0 then 1 else 0)
      /\ progress_max (this w') = int (l + d)).
Proof.
  intros [Hl Hd] Hl0 Hd0 Hafter.
  pose proof (update_outcome flag w) as H.
  rewrite Hl, Hd, presentation_int in H.
  assert (Hshown : exists w1 : World,
            this w' = shown (int l) (int d) (int (l + d))
                        (if 0 <? l + d then int (l / (l + d)) else int 1)
                        (if 0 <? l + d then int (l + d) else int 2) (this w1)).
  { destruct (update flag w) as [[] w2|e w2|]; [| |done];
      injection Hafter as <-;
      destruct H as (t & vv & mx & [= <- <- <-] & [-> | (_ & s & ->)]);
      by exists w. }
  destruct Hshown as (w1 & ->). cbn [likeCount dislikeCount total progress_value
                                      progress_max shown].
  split; [done|]. split; [done|]. split; [done|]. split.
  - intros Hz. assert ((0 <? l + d) = false) as -> by (apply Z.ltb_ge; lia). done.
  - intros Hpos. assert ((0 <? l + d) = true) as -> by (by apply Z.ltb_lt).
    split; [|done]. destruct (d =? 0) eqn:Hdz.
    + apply Z.eqb_eq in Hdz. subst d. rewrite Z.add_0_r. by rewrite Z.div_same by lia.
    + apply Z.eqb_neq in Hdz. by rewrite Z.div_small by lia.
Qed.

(** X11.  [update] changes the labels, the total and the progress bar, and
    the stored item if it is asked to: it never changes the counters or
    [apiRoot], sends no request, calls [setItem] at most once, and not at
    all when its argument is falsy (the default [false] included). *)
Theorem update_touches_display_and_store_only (flag : value) (w w' : World) :
  after (update flag w) = Some w' ->
  likes (this w') = likes (this w) /\ dislikes (this w') = dislikes (this w)
  /\ apiRoot (this w') = apiRoot (this w)
  /\ sent w' = sent w /\ clock w' = clock w /\ href w' = href w
  /\ (puts w' = puts w \/ puts w' = S (puts w))
  /\ (puts w' = puts w -> storage w' = storage w)
  /\ (truthy flag = false -> puts w' = puts w).
Proof.
  intros Hafter. pose proof (update_outcome flag w) as H.
  destruct (update flag w) as [[] w2|e w2|]; [| |done];
    injection Hafter as <-;
    destruct H as (t & vv & mx & _ & [-> | (Ht & s & ->)]);
    cbn [likes dislikes apiRoot this sent clock href puts storage with_this shown setItem];
    (repeat (split; [first [done | by left | by right | lia | congruence]|]));
    first [done | lia | congruence].
Qed.

End Display.

Section Store.

Context {platform : Platform}.


(** X6.  An entry without an [expires] property never expires: the test
    [undefined < Date.now()] is false at every time, so [getCached] serves
    the entry whatever the clock shows. *)
Theorem getCached_entry_without_expires
  (w : World) (k : string) (m e : gmap string value) :
  page w k -> holds w m -> m !! k = Some (VObj e) -> e !! "expires" = None ->
  getCached w = Ok (VObj (served k e)) w
  /\ forall ms, getCached (advance ms w) = Ok (VObj (served k e)) (advance ms w).
Proof.
  intros Hk Hm Hmk He.
  assert (H : forall w2, href w2 = href w -> storage w2 = storage w ->
            getCached w2 = Ok (VObj (served k e)) w2).
  { intros w2 Hh Hs. unfold getCached.
    rewrite (bind_ok _ _ _ _ _ (page_frame w w2 k Hh Hk)).
    rewrite (bind_ok _ _ _ _ _ (holds_frame w w2 m Hs Hm)).
    unfold get_key, bind, ret. rewrite Hmk. cbn. by rewrite He. }
  split; [by apply H|]. intros ms. by apply H.
Qed.


(** X8.  A stored item that is not JSON blocks the widget: [getCached],
    [setCache], [getRating] and [load] all throw the [SyntaxError] of
    [JSON.parse] and leave the world as it was, so no request is sent and
    the stored item is never replaced. *)
Theorem unparsable_store_blocks_load (w : World) (k : string) :
  page w k -> unparsable w ->
  getCached w = Throw SyntaxError w
  /\ (forall rating, setCache rating w = Throw SyntaxError w)
  /\ getRating w = Throw SyntaxError w
  /\ load w = Throw SyntaxError w.
Proof.
  intros Hk Hu.
  assert (Hc : getCached w = Throw SyntaxError w).
  { unfold getCached. rewrite (bind_ok _ _ _ _ _ Hk).
    unfold bind at 1. by rewrite (getAllCache_unparsable w Hu). }
  assert (Hr : getRating w = Throw SyntaxError w).
  { unfold getRating. unfold bind at 1. by rewrite Hc. }
  split; [done|]. split; [intros rating; by apply (setCache_unparsable rating w k)|].
  split; [done|]. unfold load. unfold bind at 1. by rewrite Hr.
Qed.

End Store.

Section Loading.

Context {platform : Platform}.




End Loading.

Section Construction.

Context {platform : Platform}.

Lemma constructor_unfold settings root w :
  configured settings root ->
  constructor settings w = detached load (with_this (fun _ => attached root) w).
Proof.
  intros (props & Hs & Hroot). unfold constructor.
  unfold bind at 1. rewrite Hs. cbn [covered].
  assert (merge_settings props !! "apiRoot" = Some (VStr root)) as Hm.
  { unfold merge_settings. destruct Hroot as [Hp | [Hp ->]].
    - by apply lookup_union_Some_l.
    - rewrite lookup_union_r by done. by rewrite lookup_singleton_eq. }
  unfold bind at 1. rewrite Hm. reflexivity.
Qed.


Lemma visit_serves settings root w k m l d ms :
  configured settings root ->
  page w k -> holds w (renewed k l d m (clock w)) ->
  0 <= ms <= 3600000 ->
  roundtrips (VObj (renewed k l d m (clock w + ms))) ->
  exists w1,
    visit settings ms w = Some w1
    /\ page w1 k /\ holds w1 (renewed k l d m (clock w1))
    /\ clock w1 = clock w + ms /\ sent w1 = sent w
    /\ counts w1 l d
    /\ likeCount (this w1) = int l /\ dislikeCount (this w1) = int d.
Proof.
  intros Hconf Hk Hm Hms Hrt. unfold visit.
  rewrite (constructor_unfold settings root _ Hconf).
  set (w0 := with_this (fun _ => attached root) (advance ms w)).
  set (e := entry_at (clock w) (tally (int l) (int d))).
  assert (Hk0 : page w0 k) by (by apply (page_frame w)).
  assert (Hm0 : holds w0 (renewed k l d m (clock w))) by (by apply (holds_frame w)).
  assert (Hr : getRating w0 = Ok (VObj (served k e)) w0).
  { apply getRating_hit; [|done].
    rewrite (getCached_entry w0 k _ e (clock w + TTL) Hk0 Hm0).
    - cbn [clock w0 with_this advance].
      assert ((clock w + TTL <? clock w + ms) = false) as ->
        by (apply Z.ltb_ge; unfold TTL; lia).
      done.
    - unfold renewed. by rewrite lookup_insert_eq.
    - unfold e, entry_at. by rewrite lookup_insert_eq. }
  pose proof (load_spec w0 (VObj (served k e)) w0 k (renewed k l d m (clock w))
                (int (l + d))
                (if 0 <? l + d then int (l / (l + d)) else int 1)
                (if 0 <? l + d then int (l + d) else int 2)
                Hr eq_refl Hk0 Hm0) as Hload.
  cbn zeta in Hload.
  assert (Hpl : property (VObj (served k e)) "likes" = int l) by reflexivity.
  assert (Hpd : property (VObj (served k e)) "dislikes" = int d) by reflexivity.
  rewrite Hpl, Hpd in Hload. specialize (Hload (presentation_int l d)).
  unfold renewed in Hload at 1. rewrite insert_insert_eq in Hload.
  fold (renewed k l d m (clock w0)) in Hload.
  unfold detached. rewrite Hload. cbn [after].
  eexists. split; [reflexivity|].
  split; [by apply (page_frame w)|].
  split; [by apply holds_written|].
  split; [done|]. split; [done|]. split; [by split|]. done.
Qed.

(** X14.  A hit renews the entry: each visit within the hour that follows
    the last write serves the stored counters and writes them back with a
    new expiry.  So however many visits follow one another at most one hour
    apart, none of them sends a request, and each shows the counters that
    were stored at the start. *)
Theorem visits_within_the_hour_never_refetch
  (settings : value) (root : string) (delays : list Z) (w : World)
  (k : string) (m : gmap string value) (l d : Z) :
  configured settings root ->
  page w k -> holds w (renewed k l d m (clock w)) ->
  Forall (fun ms => 0 <= ms <= 3600000) delays ->
  Forall (fun t => roundtrips (VObj (renewed k l d m t))) (times (clock w) delays) ->
  exists w',
    visits settings delays w = Some w'
    /\ sent w' = sent w
    /\ holds w' (renewed k l d m (clock w'))
    /\ (delays = []
        \/ (counts w' l d
            /\ likeCount (this w') = int l /\ dislikeCount (this w') = int d)).
Proof.
  intros Hconf. revert w.
  induction delays as [|ms delays IH]; intros w Hk Hm Hms Hrt.
  - exists w. split; [done|]. split; [done|]. split; [done|]. by left.
  - cbn [times] in Hrt.
    apply Forall_cons in Hms as [Hms Hrest]. apply Forall_cons in Hrt as [Hrt Hrts].
    destruct (visit_serves settings root w k m l d ms Hconf Hk Hm Hms Hrt)
      as (w1 & Hv & Hk1 & Hm1 & Hc1 & Hs1 & Hshown).
    rewrite <- Hc1 in Hrts.
    destruct (IH w1 Hk1 Hm1 Hrest Hrts) as (w' & Hvs & Hs' & Hm' & Hlast).
    exists w'. cbn [visits]. rewrite Hv.
    split; [done|]. split; [congruence|]. split; [done|]. right.
    destruct Hlast as [-> | Hlast]; [|done].
    cbn [visits] in Hvs. by injection Hvs as <-.
Qed.


End Construction.

Module StrMore.
Import Str.

Lemma append_cons a r s : String a r +:+ s = String a (r +:+ s).
Proof. reflexivity. Qed.

Lemma append_assoc (r s t : string) : (r +:+ s) +:+ t = r +:+ (s +:+ t).
Proof.
  induction r as [|a r IH]; [reflexivity|].
  by rewrite !append_cons, IH.
Qed.

Lemma strip_slash_app (r : string) : strip_trailing_slash (r +:+ "/") = r.
Proof.
  induction r as [|a r IH]; [reflexivity|].
  rewrite append_cons. destruct r as [|b r].
  - reflexivity.
  - rewrite append_cons in *. cbn [strip_trailing_slash] in *. by rewrite IH.
Qed.

Lemma strip_without_slash (r : string) :
  ends_with_slash r = false -> strip_trailing_slash r = r.
Proof.
  induction r as [|a r IH]; [done|].
  cbn [ends_with_slash strip_trailing_slash]. destruct r as [|b r].
  - by intros ->.
  - intros H. by rewrite IH.
Qed.

End StrMore.

Section Keys.

Context {platform : Platform}.

(** X16.  A page and the same page written with one more slash at its end
    have the same cache key: when the host and path of a page do not end in
    a slash, [getURL] returns for [host + path + "/"] what it returns for
    [host + path]. *)
Theorem trailing_slash_shares_key (w w' : World) (host path : string) :
  URL_new (href w) = Some (mkURL host path) ->
  URL_new (href w') = Some (mkURL host (path +:+ "/")) ->
  ends_with_slash (host +:+ path) = false ->
  exists k, getURL w = Ok k w /\ getURL w' = Ok k w'
            /\ k = Str.replace_first "www." "" (host +:+ path).
Proof.
  intros Hu Hu' Hend. exists (clean_url (host +:+ path)).
  rewrite !getURL_unfold, Hu, Hu'. cbn [hostname pathname].
  split; [done|]. split.
  - unfold clean_url. cbn zeta.
    by rewrite <- StrMore.append_assoc, StrMore.strip_slash_app,
         StrMore.strip_without_slash.
  - unfold clean_url. cbn zeta. by rewrite StrMore.strip_without_slash.
Qed.

End Keys.

Section Requests.

Context {platform : Platform}.






End Requests.

Section Sequences.

Context {platform : Platform}.

(** X17.  Through any sequence of [like()] and [dislike()] calls on
    integer counters, the sum of the two counters grows by one for each
    vote answered [status: "success"] and by nothing else: a vote answered
    [status: "updated"] moves one unit from one counter to the other. *)
Theorem switched_votes_conserve_the_sum (votes : list vote) (w w' : World) (l d : Z) :
  counts w l d -> run votes w = Some w' ->
  exists l' d', counts w' l' d' /\ l' + d' = l + d + recorded votes w.
Proof.
  revert w l d. induction votes as [|v votes IH]; intros w l d Hc Hrun.
  - cbn in Hrun. injection Hrun as <-. exists l, d. split; [done|]. cbn. lia.
  - cbn [run recorded] in *.
    destruct (after (cast v w)) as [w1|] eqn:Hafter; [|done].
    pose proof (cast_counts v w w1 l d Hc Hafter) as Hc1.
    destruct (IH w1 _ _ Hc1 Hrun) as (l' & d' & Hc' & Hsum).
    exists l', d'. split; [done|]. rewrite Hsum.
    destruct (next_verdict v w); destruct v; cbn; lia.
Qed.

End Sequences.

Section Instances.

#[local] Existing Instance Reference_platform.
Import Scenario.

Import Cases.

Lemma roundtrips_computed (v : value) :
  (String.eqb (JSON_stringify v) "" = false) ->
  JSON_parse (JSON_stringify v) = Some v -> roundtrips v.
Proof. intros Hne Hp. split; [by apply String.eqb_neq | done]. Qed.

Lemma configured_default : configured VUndef default_apiRoot.
Proof. exists ∅. split; [reflexivity|]. right. by split. Qed.

(** X1, an instance: a dislike on the page of the examples. *)
Lemma vote_sends_one_request_witness :
  exists w',
    after (cast Dislike (ready 5 3 [created])) = Some w'
    /\ sent w' = [mkRequest "http://www.dislike-everywhere.test/rate" "GET"
                    [("url", location); ("rating", "0")]].
Proof.
  eexists. split; [vm_compute; reflexivity|].
  match goal with
  | |- sent ?w' = _ =>
      destruct (vote_sends_one_request (platform := Reference_platform)
                  Dislike (ready 5 3 [created]) w'
                  ltac:(vm_compute; reflexivity)) as (H & _)
  end.
  rewrite H. vm_compute. reflexivity.
Defined.

(** X2, an instance: from [{5,3}], a like answered [updated] gives [{6,2}]. *)
Lemma vote_changes_counters_witness :
  exists w',
    after (cast Like (ready 5 3 [switched])) = Some w'
    /\ counts w' 6 2
    /\ likeCount (this w') = int 6 /\ dislikeCount (this w') = int 2
    /\ total (this w') = int 8.
Proof.
  eexists. split; [vm_compute; reflexivity|].
  match goal with
  | |- counts ?w' _ _ /\ _ =>
      pose proof (vote_changes_counters (platform := Reference_platform)
                    Like (ready 5 3 [switched]) w' 5 3
                    ltac:(by split) ltac:(vm_compute; reflexivity)) as H
  end.
  cbn zeta in H. destruct H as [Hc Hshown].
  split; [exact Hc|]. apply Hshown. vm_compute. reflexivity.
Defined.

(** X3, instances: a like whose request fails, and a like answered
    [{error: true}]. *)
Lemma unanswered_vote_changes_nothing_witness :
  let failing := ready 5 3 [] in
  let flagged := ready 5 3 [error_flagged] in
  (exists e, like failing = Throw e (settled (rate_request failing "1") failing))
  /\ like flagged = Ok tt (settled (rate_request flagged "1") flagged).
Proof.
  intros failing flagged. split.
  - apply (unanswered_vote_changes_nothing Like failing);
      [left; vm_compute; reflexivity | vm_compute; reflexivity].
  - apply (unanswered_vote_changes_nothing Like flagged).
    + right. split; [reflexivity|]. eexists. split; vm_compute; reflexivity.
    + vm_compute. intros H. discriminate H.
Defined.



(** X6, an instance: an entry without [expires] is served thirty years
    later. *)
Lemma getCached_entry_without_expires_witness :
  let later := advance 1000000000000 with_undated in
  getCached later = Ok (VObj (served key (tally (int 5) (int 3)))) later.
Proof.
  intros later.
  apply (getCached_entry_without_expires with_undated key undated);
    [apply location_key | vm_compute; reflexivity..].
Defined.


(** X8, an instance: the stored text is an opening brace. *)
Lemma unparsable_store_blocks_load_witness :
  load (broken 5 3 [seven_two]) = Throw SyntaxError (broken 5 3 [seven_two]).
Proof.
  apply (unparsable_store_blocks_load (broken 5 3 [seven_two]) key);
    [apply location_key|].
  exists "{". split; [reflexivity|]. split; [intros H; discriminate H|].
  vm_compute. reflexivity.
Defined.

(** X9, an instance: a like answered [success] while the stored text is an
    opening brace. *)
Lemma vote_on_unparsable_store_witness :
  exists w',
    like (broken 5 3 [created]) = Throw SyntaxError w'
    /\ counts w' 6 3 /\ likeCount (this w') = int 6
    /\ storage w' = Some "{".
Proof.
  destruct (vote_on_unparsable_store Like (broken 5 3 [created]) key 5 3)
    as (w' & H1 & H2 & H3 & _ & H5 & _);
    [by split | apply location_key | | vm_compute; reflexivity |].
  { exists "{". split; [reflexivity|]. split; [intros H; discriminate H|].
    vm_compute. reflexivity. }
  exists w'. split; [exact H1|]. split; [exact H2|]. split; [exact H3 | exact H5].
Defined.

(** X10, instances: five likes and no dislike, and five likes and one
    dislike. *)
Lemma update_shows_all_or_nothing_witness :
  (exists w', update (VBool false) (ready 5 0 []) = Ok tt w'
              /\ progress_value (this w') = int 1 /\ progress_max (this w') = int 5)
  /\ (exists w', update (VBool false) (ready 5 1 []) = Ok tt w'
                 /\ progress_value (this w') = int 0 /\ progress_max (this w') = int 6).
Proof.
  split.
  - eexists. split; [vm_compute; reflexivity|].
    apply (update_shows_all_or_nothing (VBool false) (ready 5 0 []) _ 5 0);
      [by split | lia | lia | vm_compute; reflexivity | lia].
  - eexists. split; [vm_compute; reflexivity|].
    apply (update_shows_all_or_nothing (VBool false) (ready 5 1 []) _ 5 1);
      [by split | lia | lia | vm_compute; reflexivity | lia].
Defined.

(** X11, an instance: [update()] on [{5,3}]. *)
Lemma update_touches_display_and_store_only_witness :
  exists w',
    update (VBool false) (ready 5 3 []) = Ok tt w'
    /\ likes (this w') = int 5 /\ dislikes (this w') = int 3.
Proof.
  eexists. split; [vm_compute; reflexivity|].
  match goal with
  | |- likes (this ?w') = _ /\ _ =>
      destruct (update_touches_display_and_store_only (platform := Reference_platform)
                  (VBool false) (ready 5 3 []) w'
                  ltac:(vm_compute; reflexivity)) as (Hl & Hd & _)
  end.
  split; [exact Hl | exact Hd].
Defined.



(** X14, an instance: the entry is written at 1000; a visit one minute
    later and another one a full hour after that send no request. *)
Lemma visits_within_the_hour_never_refetch_witness :
  exists w',
    visits VUndef [60000; 3600000] just_written = Some w'
    /\ sent w' = []
    /\ counts w' 5 3.
Proof.
  destruct (visits_within_the_hour_never_refetch VUndef default_apiRoot
              [60000; 3600000] just_written key ∅ 5 3)
    as (w' & H1 & H2 & _ & [H | (H4 & _)]);
    [apply configured_default | apply location_key | vm_compute; reflexivity
    | repeat constructor; lia
    | repeat constructor; apply roundtrips_computed; vm_compute; reflexivity
    | discriminate H |].
  exists w'. split; [exact H1|]. split; [exact H2 | exact H4].
Defined.


(** X16, an instance: [/path] and [/path/] on the same host. *)
Lemma trailing_slash_shares_key_witness :
  let w := world None 1000 "https://example.com/path" [] (bar VUndef VUndef) in
  let w' := world None 1000 "https://example.com/path/" [] (bar VUndef VUndef) in
  exists k, getURL w = Ok k w /\ getURL w' = Ok k w' /\ k = "example.com/path".
Proof.
  intros w w'.
  destruct (trailing_slash_shares_key w w' "example.com" "/path")
    as (k & H1 & H2 & H3);
    [vm_compute; reflexivity | vm_compute; reflexivity | vm_compute; reflexivity |].
  exists k. split; [exact H1|]. split; [exact H2|]. rewrite H3. vm_compute. reflexivity.
Defined.

(** X17, an instance: from [{5,3}], a like recorded and a dislike that
    converts it: the sum goes from 8 to 9. *)
Lemma switched_votes_conserve_the_sum_witness :
  exists w',
    run [Like; Dislike] (ready 5 3 [created; switched]) = Some w'
    /\ exists l' d', counts w' l' d' /\ l' + d' = 9.
Proof.
  eexists. split; [vm_compute; reflexivity|].
  match goal with
  | |- exists l' d', counts ?w' _ _ /\ _ =>
      destruct (switched_votes_conserve_the_sum (platform := Reference_platform)
                  [Like; Dislike] (ready 5 3 [created; switched]) w' 5 3
                  ltac:(by split) ltac:(vm_compute; reflexivity))
        as (l' & d' & Hc & Hsum)
  end.
  exists l', d'. split; [exact Hc|]. rewrite Hsum. vm_compute. reflexivity.
Defined.



End Instances.
